(** * teuthology/coverage.py: a shallow embedding and its properties

    The module aggregates the coverage reports of a suite of test runs:
    [read_coverage] parses the textual summary printed by lcov,
    [_analyze] walks the result directories and drives the external
    tools, [store_coverage] writes the rows to a MySQL table.

    The code is Python 2 ([iteritems], [file]): [str] is a byte string,
    and a [dict] iterates in the order of its hash table. *)

From Stdlib Require Import ZArith List String Ascii Bool Lia SpecFloat.
From stdpp Require Import base list strings sorting gmap.

Local Open Scope string_scope.
Local Open Scope Z_scope.
Local Open Scope list_scope.

(** ** Exceptions and results *)

Inductive exn : Type :=
| ValueError
| TypeError
| KeyError (key : string)
| IndexError
| AssertionError
| UnboundLocalError (name : string)
| CalledProcessError (returncode : Z) (cmd : list string)
| OSError (msg : string)
| DatabaseError (msg : string).

Inductive result (A : Type) : Type :=
| Ok (a : A)
| Raise (e : exn).
Arguments Ok {A} a.
Arguments Raise {A} e.

Definition bind {A B : Type} (r : result A) (k : A -> result B) : result B :=
  match r with
  | Ok a => k a
  | Raise e => Raise e
  end.

Declare Scope result_scope.
Delimit Scope result_scope with result.
Notation "x <- r ;; k" := (bind r (fun x => k))
  (at level 100, r at next level, right associativity) : result_scope.

(** ** Python byte strings *)

Module Str.

Definition len (s : string) : Z := Z.of_nat (String.length s).

(** [s.startswith(p)] *)
Fixpoint startswith (s p : string) {struct p} : bool :=
  match p with
  | "" => true
  | String a p' =>
      match s with
      | "" => false
      | String b s' => Ascii.eqb a b && startswith s' p'
      end
  end.

(** The lowest index at which [sub] occurs in [s]. *)
Fixpoint index (s sub : string) : option nat :=
  if startswith s sub then Some 0%nat
  else
    match s with
    | "" => None
    | String _ s' => S <$> index s' sub
    end.

(** [s.find(sub)]: the lowest index of [sub] in [s], or -1. *)
Definition find (s sub : string) : Z :=
  match index s sub with
  | Some n => Z.of_nat n
  | None => -1
  end.

(** [sub in s] *)
Definition contains (sub s : string) : bool :=
  match index s sub with
  | Some _ => true
  | None => false
  end.

(** One bound of a slice: a negative index counts from the end, and the
    result is clamped to [0, len]. *)
Definition clamp (n i : Z) : Z :=
  let j := if i <? 0 then i + n else i in
  Z.max 0 (Z.min n j).

(** [s[start:stop]] *)
Definition slice (s : string) (start stop : Z) : string :=
  let n := len s in
  let a := clamp n start in
  let b := clamp n stop in
  String.substring (Z.to_nat a) (Z.to_nat (b - a)) s.

Definition LF : ascii := ascii_of_nat 10.
Definition CR : ascii := ascii_of_nat 13.

Definition cons_char (c : ascii) (ls : list string) : list string :=
  match ls with
  | [] => [String c ""]
  | l :: ls' => String c l :: ls'
  end.

(** [s.splitlines()] of a byte string: a line ends at LF, CR or CR LF,
    the line ends are dropped, and no empty last line is produced. *)
Fixpoint splitlines (s : string) : list string :=
  match s with
  | "" => []
  | String c r =>
      if Ascii.eqb c LF then "" :: splitlines r
      else if Ascii.eqb c CR then
        match r with
        | String c' r' =>
            if Ascii.eqb c' LF then "" :: splitlines r' else "" :: splitlines r
        | "" => [""]
        end
      else cons_char c (splitlines r)
  end.

(** C's [isspace] in the C locale, as [int()] and [float()] use it. *)
Definition isspace (c : ascii) : bool :=
  let n := nat_of_ascii c in
  ((9 <=? n) && (n <=? 13))%nat || (n =? 32)%nat.

Fixpoint lstrip (s : string) : string :=
  match s with
  | String c r => if isspace c then lstrip r else s
  | "" => ""
  end.

Fixpoint rstrip (s : string) : string :=
  match s with
  | String c r =>
      match rstrip r with
      | "" => if isspace c then "" else String c ""
      | r' => String c r'
      end
  | "" => ""
  end.

Definition strip (s : string) : string := rstrip (lstrip s).

Definition digit_of (c : ascii) : option Z :=
  let n := nat_of_ascii c in
  if ((48 <=? n) && (n <=? 57))%nat then Some (Z.of_nat n - 48) else None.

(** The value of a run of decimal digits read after [acc]; [None] when a
    character is no digit. *)
Fixpoint digits_acc (s : string) (acc : Z) : option Z :=
  match s with
  | "" => Some acc
  | String c r =>
      match digit_of c with
      | Some d => digits_acc r (10 * acc + d)
      | None => None
      end
  end.

(** A non-empty run of decimal digits. *)
Definition digits_value (s : string) : option Z :=
  match s with
  | "" => None
  | _ => digits_acc s 0
  end.

(** The longest prefix of digits, and what follows it. *)
Fixpoint take_digits (s : string) : string * string :=
  match s with
  | String c r =>
      match digit_of c with
      | Some _ => let '(d, rest) := take_digits r in (String c d, rest)
      | None => ("", s)
      end
  | "" => ("", "")
  end.

Definition lower (c : ascii) : ascii :=
  let n := nat_of_ascii c in
  if ((65 <=? n) && (n <=? 90))%nat then ascii_of_nat (n + 32) else c.

Fixpoint lowercase (s : string) : string :=
  match s with
  | String c r => String (lower c) (lowercase r)
  | "" => ""
  end.

End Str.

(** ** [int(s)] and [float(s)] on a byte string *)

(** A leading sign. *)
Definition split_sign (s : string) : bool * string :=
  match s with
  | String "-" r => (true, r)
  | String "+" r => (false, r)
  | _ => (false, s)
  end.

(** [int(s)]: blanks around the literal are ignored, then an optional
    sign and at least one decimal digit; anything else is a [ValueError].
    Python 2 returns an [int] or, past the machine word, a [long]: both
    are integers here. *)
Definition py_int (s : string) : result Z :=
  let '(neg, body) := split_sign (Str.strip s) in
  match Str.digits_value body with
  | Some n => Ok (if neg then - n else n)
  | None => Raise ValueError
  end.

(** A Python [float] is an IEEE 754 binary64 number. *)
Definition float : Type := spec_float.

Definition prec : Z := 53.
Definition emax : Z := 1024.

(** The binary64 number nearest to [n / d] (ties to even), for [0 <= n]
    and [0 < d]. *)
Definition round_ratio (neg : bool) (n d : Z) : float :=
  let '(mz, ez, lz) := SFdiv_core_binary prec emax n 0 d 0 in
  binary_round_aux prec emax neg mz ez lz.

(** The binary64 number nearest to [m * 10 ^ e], where the decimal
    numeral [m] was written with [nd] digits. A numeral beyond the range
    of binary64 is not expanded: it is an infinity or a zero. *)
Definition float_of_decimal (neg : bool) (m : Z) (nd : Z) (e : Z) : float :=
  if m =? 0 then S754_zero neg
  else if 310 <=? e then S754_infinity neg
  else if nd + e <=? -330 then S754_zero neg
  else if 0 <=? e then round_ratio neg (m * 10 ^ e) 1
  else round_ratio neg m (10 ^ (- e)).

(** The exponent part of a float literal: empty, or [e] or [E], an
    optional sign and at least one digit. *)
Definition parse_exponent (s : string) : option Z :=
  match s with
  | "" => Some 0
  | String c r =>
      if Ascii.eqb (Str.lower c) "e" then
        let '(neg, ds) := split_sign r in
        match Str.digits_value ds with
        | Some n => Some (if neg then - n else n)
        | None => None
        end
      else None
  end.

(** [float(s)]: blanks around the literal are ignored; the literal is
    [inf], [infinity] or [nan] in any case, or a decimal numeral with an
    optional fraction and exponent and at least one digit, each after an
    optional sign. Anything else is a [ValueError]. *)
Definition py_float (s : string) : result float :=
  let '(neg, body) := split_sign (Str.strip s) in
  let low := Str.lowercase body in
  if String.eqb low "inf" || String.eqb low "infinity" then Ok (S754_infinity neg)
  else if String.eqb low "nan" then Ok S754_nan
  else
    let '(ip, r1) := Str.take_digits body in
    let '(fp, r2) :=
      match r1 with
      | String "." r => Str.take_digits r
      | _ => ("", r1)
      end in
    let ds := ip +:+ fp in
    match Str.digits_value ds, parse_exponent r2 with
    | Some m, Some e =>
        Ok (float_of_decimal neg m (Str.len ds) (e - Str.len fp))
    | _, _ => Raise ValueError
    end.

(** ** read_coverage *)

(** One entry of the list [read_coverage] returns: [None] while the
    metric has not been seen, else the pair [(cov_num, cov_percent)],
    which is [(None, None)] for a line without data. *)
Abbreviation metric := (option (option Z * option float)).

Definition prefixes : list string :=
  ["  lines......: "; "  functions..: "; "  branches...: "].

(** [enumerate(l)] *)
Definition enumerate {A : Type} (l : list A) : list (nat * A) :=
  imap (fun i x => (i, x)) l.

(** The inner loop, [for i, prefix in enumerate(prefixes)], on one line:
    the first prefix the line starts with is the only one tried. *)
Fixpoint match_prefixes (ps : list (nat * string)) (line : string)
    (coverage : list metric) : result (list metric) :=
  match ps with
  | [] => Ok coverage
  | (i, prefix) :: ps' =>
      if Str.startswith line prefix then
        if Str.contains "%" line then
          (cov_num <- py_int (Str.slice line (Str.find line "(" + 1) (Str.find line " of"));;
           cov_percent <- py_float (Str.slice line (Str.len prefix) (Str.find line "%"));;
           Ok (<[i := Some (Some cov_num, Some cov_percent)]> coverage))%result
        else
          Ok (<[i := Some (None, None)]> coverage)
      else match_prefixes ps' line coverage
  end.

(** [None not in coverage] *)
Definition none_not_in (coverage : list metric) : bool :=
  forallb (fun m => match m with None => false | Some _ => true end) coverage.

(** The outer loop over the lines, already reversed. *)
Fixpoint scan_lines (lines : list string) (coverage : list metric)
    : result (list metric) :=
  match lines with
  | [] => Ok coverage
  | line :: rest =>
      match match_prefixes (enumerate prefixes) line coverage with
      | Ok coverage' =>
          if none_not_in coverage' then Ok coverage' else scan_lines rest coverage'
      | Raise e => Raise e
      end
  end.

Definition read_coverage (output : string) : result (list metric) :=
  scan_lines (reverse (Str.splitlines output)) [None; None; None].

(** What a line that starts with [prefix] assigns to its metric. *)
Definition line_metric (prefix line : string) : result (option Z * option float) :=
  if Str.contains "%" line then
    (cov_num <- py_int (Str.slice line (Str.find line "(" + 1) (Str.find line " of"));;
     cov_percent <- py_float (Str.slice line (Str.len prefix) (Str.find line "%"));;
     Ok (Some cov_num, Some cov_percent))%result
  else Ok (None, None).

(** The first prefix a line starts with, and its index. *)
Definition first_match (line : string) : option (nat * string) :=
  List.find (fun ip => Str.startswith line ip.2) (enumerate prefixes).

(** ** Python 2 dictionaries with string keys *)

(** The entries of a [dict], in the order in which their keys were first
    stored. Storing under a key the dict already holds replaces the value
    and leaves the hash table as it is. *)
Definition pydict (V : Type) : Type := list (string * V).

Fixpoint dict_get {V : Type} (k : string) (d : pydict V) : option V :=
  match d with
  | [] => None
  | (k', v) :: d' => if String.eqb k k' then Some v else dict_get k d'
  end.

(** [d[k] = v] *)
Fixpoint dict_set {V : Type} (k : string) (v : V) (d : pydict V) : pydict V :=
  match d with
  | [] => [(k, v)]
  | (k', v') :: d' =>
      if String.eqb k k' then (k, v) :: d' else (k', v') :: dict_set k v d'
  end.

Definition dict_keys {V : Type} (d : pydict V) : list string := map fst d.

(** The order in which a dict whose keys were stored in the given order
    is iterated. The language leaves it open; CPython 2.7's is [Dict27.order]
    below. *)
Class DictOrder : Type := slot_order : list string -> list string.

(** [d.iteritems()] *)
Definition iteritems `{DictOrder} {V : Type} (d : pydict V) : list (string * V) :=
  omap (fun k => (fun v => (k, v)) <$> dict_get k d) (slot_order (dict_keys d)).

(** CPython 2.7's dict (Objects/dictobject.c) with [str] keys
    (Objects/stringobject.c), on a 64-bit build with hash randomisation
    off, its default. Only insertion of new keys is needed: the code never
    deletes a key. *)
Module Dict27.

Definition wrap64 (x : Z) : Z := x mod 2 ^ 64.

Definition ord (c : ascii) : Z := Z.of_nat (nat_of_ascii c).

Fixpoint hash_loop (s : string) (x : Z) : Z :=
  match s with
  | "" => x
  | String c r => hash_loop r (Z.lxor (wrap64 (1000003 * x)) (ord c))
  end.

(** [string_hash], as the unsigned 64-bit pattern of the C [long]. *)
Definition string_hash (s : string) : Z :=
  match s with
  | "" => 0
  | String c _ =>
      let x := Z.lxor (hash_loop s (Z.shiftl (ord c) 7)) (Str.len s) in
      if x =? 2 ^ 64 - 1 then 2 ^ 64 - 2 else x
  end.

(** The hash table: one slot per index, [None] when unused. *)
Definition table : Type := list (option string).

Definition MINSIZE : nat := 8.
Definition PERTURB_SHIFT : Z := 5.

Definition is_free (t : table) (j : nat) : bool :=
  match t !! j with
  | Some None => true
  | _ => false
  end.

(** The probe sequence of [lookdict_string] after the first slot was
    found taken. [fuel] bounds the search; a table always keeps a third
    of its slots unused, and the sequence reaches every slot. *)
Fixpoint probe (fuel : nat) (t : table) (mask i perturb : Z) : option nat :=
  match fuel with
  | O => None
  | S fuel' =>
      let i' := wrap64 (Z.shiftl i 2 + i + perturb + 1) in
      let j := Z.to_nat (Z.land i' mask) in
      if is_free t j then Some j
      else probe fuel' t mask i' (Z.shiftr perturb PERTURB_SHIFT)
  end.

(** The slot a key that is not in the table goes to. *)
Definition free_slot (t : table) (key : string) : option nat :=
  let mask := Z.of_nat (length t) - 1 in
  let h := string_hash key in
  let i := Z.land h mask in
  if is_free t (Z.to_nat i) then Some (Z.to_nat i)
  else probe (length t + 64) t mask i h.

(** [insertdict_clean]: store a key that is not in the table. *)
Definition insert_clean (t : table) (key : string) : table :=
  match free_slot t key with
  | Some j => <[j := Some key]> t
  | None => t
  end.

(** The keys of a table in slot order: the order of iteration. *)
Definition table_keys (t : table) : list string := omap id t.

(** The size [dictresize] picks: the first power of two from 8 up that
    exceeds [minused]. *)
Fixpoint newsize (fuel : nat) (size minused : nat) : nat :=
  match fuel with
  | O => size
  | S fuel' => if (size <=? minused)%nat then newsize fuel' (2 * size) minused else size
  end.

Definition dictresize (t : table) (minused : nat) : table :=
  fold_left insert_clean (table_keys t) (replicate (newsize 64 MINSIZE minused) None).

(** [PyDict_SetItem] of a new key: the table grows once two thirds of it
    are taken. *)
Definition insert (t : table) (key : string) : table :=
  let t' := insert_clean t key in
  let used := length (table_keys t') in
  if (2 * length t' <=? 3 * used)%nat
  then dictresize t' ((if 50000 <? Z.of_nat used then 2 else 4) * used)
  else t'.

Definition order : DictOrder :=
  fun keys => table_keys (fold_left insert keys (replicate MINSIZE None)).

End Dict27.

(** ** The world outside the program *)

(** A parsed YAML document of [summary.yaml]: a mapping. The values the
    program reads ([flavor], [description], [ceph-sha1]) are strings, and
    every value is taken as one. *)
Abbreviation summary_doc := (gmap string string).

(** The values bound to the columns of a row. *)
Inductive pyval : Type :=
| PyNone
| PyInt (n : Z)
| PyFloat (x : float)
| PyStr (s : string).

Definition row : Type := list pyval.

(** The calls on the MySQLdb connection and its cursor. *)
Inductive db_op : Type :=
| OpConnect | OpAutocommit | OpCursor | OpExecutemany
| OpRollback | OpCommit | OpCursorClose | OpClose.

#[global] Instance db_op_eq_dec : EqDecision db_op.
Proof. solve_decision. Defined.

(** What the program observes of the file system, of the tools it runs
    and of the database driver. *)
Record world : Type := {
  (** [os.listdir(path)], in the order the system gives *)
  os_listdir : string -> list string;
  os_path_isdir : string -> bool;
  os_path_exists : string -> bool;
  (** the content of the file at a path *)
  file_content : string -> option string;
  (** [yaml.safe_load_all] on the file at a path *)
  yaml_safe_load_all : string -> list summary_doc;
  (** the exit status of a command run by [subprocess.check_call] *)
  exit_status : list string -> Z;
  (** what a command run by [subprocess.Popen] writes to its stdout *)
  stdout_of : list string -> string;
  (** the exception a database call raises, if it does *)
  db_fault : db_op -> option exn;
  (** the rows a failing [executemany] has sent before it raises *)
  db_partial : nat
}.

(** The effects of a run, in order. *)
Inductive event : Type :=
| EvCheckCall (cmd : list string)
| EvPopen (cmd : list string)
| EvCopy (src dst : string)
| EvRename (src dst : string)
| EvConnect (host user db passwd : string)
| EvAutocommit (on : bool)
| EvCursor
| EvExecutemany (query : string) (rows : list row)
| EvRollback
| EvCommit
| EvCursorClose
| EvClose.

(** The table of a transactional database behind one connection: the
    rows committed, and the rows of the open transaction. *)
Record database : Type := {
  committed : list row;
  pending : list row;
  connected : bool
}.

Record sys : Type := {
  trace : list event;
  db : database
}.

(** Programs with effects: a state and a result or an exception. The
    state reached when the exception was raised is kept. *)
Definition M (A : Type) : Type := sys -> result A * sys.

Definition ret {A : Type} (a : A) : M A := fun s => (Ok a, s).
Definition raise {A : Type} (e : exn) : M A := fun s => (Raise e, s).
Definition mbind {A B : Type} (m : M A) (k : A -> M B) : M B :=
  fun s =>
    match m s with
    | (Ok a, s') => k a s'
    | (Raise e, s') => (Raise e, s')
    end.
Definition lift {A : Type} (r : result A) : M A := fun s => (r, s).

Declare Scope M_scope.
Delimit Scope M_scope with M.
Notation "x <- m ;; k" := (mbind m (fun x => k))
  (at level 100, m at next level, right associativity) : M_scope.
Notation "m ;;; k" := (mbind m (fun _ => k))
  (at level 100, right associativity) : M_scope.

Definition emit (ev : event) : M unit :=
  fun s => (Ok tt, {| trace := (trace s ++ [ev])%list; db := db s |}).

Definition update_db (f : database -> database) : M unit :=
  fun s => (Ok tt, {| trace := trace s; db := f (db s) |}).

(** [try: body finally: fin]: an exception of [fin] replaces the
    outcome of [body]. *)
Definition try_finally {A : Type} (body : M A) (fin : M unit) : M A :=
  fun s =>
    let '(r, s1) := body s in
    match fin s1 with
    | (Ok _, s2) => (r, s2)
    | (Raise e, s2) => (Raise e, s2)
    end.

(** ** os.path *)

Fixpoint endswith_slash (p : string) : bool :=
  match p with
  | "" => false
  | String c "" => Ascii.eqb c "/"
  | String _ r => endswith_slash r
  end.

(** [os.path.join(a, b)] of posixpath. *)
Definition join (a b : string) : string :=
  if Str.startswith b "/" then b
  else if String.eqb a "" || endswith_slash a then a +:+ b
  else a +:+ "/" +:+ b.

(** [os.path.basename(p)]: what follows the last slash. *)
Fixpoint basename (p : string) : string :=
  match p with
  | "" => ""
  | String c r =>
      if Str.contains "/" r then basename r
      else if Ascii.eqb c "/" then r
      else p
  end.

(** ** connect_to_db and store_coverage *)

Record args : Type := {
  test_dir : string;
  lcov_output : string;
  html_output : option string;
  cov_tools_dir : string;
  skip_init : bool;
  teuthology_config : gmap string string
}.

(** [d[k]] on a dict that is only read. *)
Definition getitem (d : gmap string string) (k : string) : M string :=
  match d !! k with
  | Some v => ret v
  | None => raise (KeyError k)
  end.

(** One call on the driver: recorded, then it raises what the world
    says or has its effect on the database. *)
Definition db_call (W : world) (op : db_op) (ev : event)
    (effect : database -> database) : M unit :=
  (emit ev ;;;
   match db_fault W op with
   | Some e => raise e
   | None => update_db effect
   end)%M.

(** A new connection has no open transaction. *)
Definition open_connection (d : database) : database :=
  {| committed := committed d; pending := []; connected := true |}.

(** [cursor.executemany(query, rows)] in an open transaction. A call
    that fails may have sent some of the rows. *)
Definition add_pending (rows : list row) (d : database) : database :=
  {| committed := committed d; pending := (pending d ++ rows)%list; connected := connected d |}.

Definition executemany (W : world) (query : string) (rows : list row) : M unit :=
  (emit (EvExecutemany query rows) ;;;
   match db_fault W OpExecutemany with
   | Some e => update_db (add_pending (take (db_partial W) rows)) ;;; raise e
   | None => update_db (add_pending rows)
   end)%M.

Definition do_rollback (d : database) : database :=
  {| committed := committed d; pending := []; connected := connected d |}.

Definition do_commit (d : database) : database :=
  {| committed := (committed d ++ pending d)%list; pending := []; connected := connected d |}.

(** Closing a connection ends its transaction: what was not committed
    is lost. *)
Definition do_close (d : database) : database :=
  {| committed := committed d; pending := []; connected := false |}.

Definition connect_to_db (W : world) (ctx : args) : M unit :=
  (host <- getitem (teuthology_config ctx) "coverage_db_host" ;;
   user <- getitem (teuthology_config ctx) "coverage_db_user" ;;
   name <- getitem (teuthology_config ctx) "coverage_db_name" ;;
   passwd <- getitem (teuthology_config ctx) "coverage_db_password" ;;
   db_call W OpConnect (EvConnect host user name passwd) open_connection ;;;
   db_call W OpAutocommit (EvAutocommit false) id)%M.

Definition item_of_num (n : option Z) : pyval :=
  match n with Some z => PyInt z | None => PyNone end.

Definition item_of_percent (p : option float) : pyval :=
  match p with Some x => PyFloat x | None => PyNone end.

(** [[item for sublist in coverage for item in sublist]]: iterating over
    an entry that is [None] is a [TypeError]. *)
Fixpoint flatten (coverage : list metric) : result (list pyval) :=
  match coverage with
  | [] => Ok []
  | None :: _ => Raise TypeError
  | Some (n, p) :: rest =>
      (items <- flatten rest ;; Ok (item_of_num n :: item_of_percent p :: items))%result
  end.

(** The loop that builds [rows]. *)
Fixpoint build_rows (rev suite : string) (entries : list (string * list metric))
    : result (list row) :=
  match entries with
  | [] => Ok []
  | (test, coverage) :: rest =>
      (flattened_cov <- flatten coverage ;;
       rows <- build_rows rev suite rest ;;
       Ok (([PyStr rev; PyStr test; PyStr suite] ++ flattened_cov)%list :: rows))%result
  end.

Definition insert_query : string :=
  "INSERT INTO `coverage`" +:+
  " (`rev`, `test`, `suite`, `lines`, `line_cov`, `functions`," +:+
  " `function_cov`, `branches`, `branch_cov`)" +:+
  " VALUES (%s, %s, %s, %s, %s, %s, %s, %s, %s)".

(** The [try] statement of [store_coverage]. The name [cursor] is bound
    only once [db.cursor()] has returned; the [finally] clause reads it
    either way. *)
Definition insert_rows (W : world) (rows : list row) : M unit :=
  fun s =>
    (* try: *)
    let '(cursor_bound, (r, s1)) :=
      match db_call W OpCursor EvCursor id s with
      | (Ok _, s0) => (true, executemany W insert_query rows s0)
      | (Raise e, s0) => (false, (Raise e, s0))
      end in
    let '(r', s2) :=
      match r with
      | Raise e =>
          (* except: db.rollback(); raise *)
          (db_call W OpRollback EvRollback do_rollback ;;; raise e)%M s1
      | Ok _ =>
          (* else: db.commit() *)
          db_call W OpCommit EvCommit do_commit s1
      end in
    (* finally: cursor.close() *)
    try_finally (lift r')
      (if cursor_bound : bool then db_call W OpCursorClose EvCursorClose id
       else raise (UnboundLocalError "cursor")) s2.

Section Programs.
Context {order : DictOrder}.
Variable W : world.

Definition store_coverage (ctx : args) (test_coverage : pydict (list metric))
    (rev suite : string) : M unit :=
  (connect_to_db W ctx ;;;
   (* with closing(db): *)
   try_finally
     (rows <- lift (build_rows rev suite (iteritems test_coverage)) ;;
      insert_rows W rows)
     (db_call W OpClose EvClose do_close))%M.

(** ** _analyze *)

Definition str_le (a b : string) : Prop := String.leb a b = true.

#[local] Instance str_le_dec (a b : string) : Decision (str_le a b).
Proof. unfold str_le. apply _. Defined.

(** [sorted(l)] on byte strings. *)
Definition sorted (l : list string) : list string := merge_sort str_le l.

(** The condition of the list comprehension that picks the tests. *)
Definition is_candidate (a : args) (f : string) : bool :=
  negb (Str.startswith f ".")
  && os_path_isdir W (join (test_dir a) f)
  && os_path_exists W (join (join (test_dir a) f) "summary.yaml")
  && os_path_exists W (join (join (test_dir a) f) "ceph-sha1").

Definition candidates (a : args) : list string :=
  filter (fun f => is_candidate a f = true) (sorted (os_listdir W (test_dir a))).

(** [summary.update(new)] for each document of the file. *)
Definition load_summary (a : args) (test : string) : summary_doc :=
  fold_left (fun summary new => new ∪ summary)
    (yaml_safe_load_all W (join (join (test_dir a) test) "summary.yaml")) ∅.

(** The loop that fills [test_summaries]. *)
Fixpoint load_summaries (a : args) (tests : list string)
    (test_summaries : pydict summary_doc) : result (pydict summary_doc) :=
  match tests with
  | [] => Ok test_summaries
  | test :: rest =>
      let summary := load_summary a test in
      match summary !! "flavor" with
      | None => Raise (KeyError "flavor")
      | Some flavor =>
          if String.eqb flavor "gcov"
          then load_summaries a rest (dict_set test summary test_summaries)
          else load_summaries a rest test_summaries
      end
  end.

(** [subprocess.check_call(args)] *)
Definition check_call (cmd : list string) : M unit :=
  (emit (EvCheckCall cmd) ;;;
   if exit_status W cmd =? 0 then ret tt
   else raise (CalledProcessError (exit_status W cmd) cmd))%M.

(** [subprocess.Popen(args, stdout=PIPE)] and [communicate()]: the exit
    status is not looked at. *)
Definition popen_communicate (cmd : list string) : M string :=
  (emit (EvPopen cmd) ;;; ret (stdout_of W cmd))%M.

Definition init_cmd (a : args) (test0 build_dir suite : string) : list string :=
  [join (cov_tools_dir a) "cov-init.sh";
   join (test_dir a) test0;
   lcov_output a;
   join build_dir (suite +:+ ".tgz")].

(** The block under [if not args.skip_init]: [tests[0]] is the first
    name of the list of candidates. *)
Definition cov_init (a : args) (tests : list string) (suite : string) : M unit :=
  (test0 <- match tests with
            | t :: _ => ret t
            | [] => raise IndexError
            end ;;
   build_dir <- getitem (teuthology_config a) "ceph_build_output_dir" ;;
   check_call (init_cmd a test0 build_dir suite) ;;;
   emit (EvCopy (join (lcov_output a) "base.lcov") (join (lcov_output a) "total.lcov")))%M.

(** The names bound by the loop over the tests that outlive it. *)
Record loop_vars : Type := {
  test_coverage : pydict (list metric);
  output : option string;
  summary : option summary_doc
}.

Definition analyze_cmd (a : args) (test : string) : list string :=
  [join (cov_tools_dir a) "cov-analyze.sh";
   "-t"; join (test_dir a) test;
   "-d"; lcov_output a;
   "-o"; test].

Definition merge_cmd (a : args) (test : string) : list string :=
  ["lcov";
   "-a"; join (lcov_output a) (test +:+ ".lcov");
   "-a"; join (lcov_output a) "total.lcov";
   "-o"; join (lcov_output a) "total_tmp.lcov"].

(** The body of the loop over [test_summaries.iteritems()]. *)
Definition analyze_test (a : args) (test : string) (summ : summary_doc)
    (test_cov : pydict (list metric)) : M loop_vars :=
  (out <- popen_communicate (analyze_cmd a test) ;;
   let desc := default test (summ !! "description") in
   coverage <- lift (read_coverage out) ;;
   let test_cov' := dict_set desc coverage test_cov in
   out' <- popen_communicate (merge_cmd a test) ;;
   emit (EvRename (join (lcov_output a) "total_tmp.lcov")
                  (join (lcov_output a) "total.lcov")) ;;;
   ret {| test_coverage := test_cov'; output := Some out'; summary := Some summ |})%M.

Fixpoint analyze_tests (a : args) (items : list (string * summary_doc))
    (vars : loop_vars) : M loop_vars :=
  match items with
  | [] => ret vars
  | (test, summ) :: rest =>
      (vars' <- analyze_test a test summ (test_coverage vars) ;;
       analyze_tests a rest vars')%M
  end.

(** Reading a local name that no assignment has bound. *)
Definition local {A : Type} (name : string) (v : option A) : M A :=
  match v with
  | Some x => ret x
  | None => raise (UnboundLocalError name)
  end.

(** A string as a condition: empty is false. *)
Definition truthy (s : option string) : bool :=
  match s with
  | Some s' => negb (String.eqb s' "")
  | None => false
  end.

Definition genhtml_cmd (a : args) (suite : string) : list string :=
  ["genhtml"; "-s";
   "-o"; join (default "" (html_output a)) "total";
   "-t"; "Total for " +:+ suite;
   "--";
   join (lcov_output a) "total.lcov"].

Definition total_label (suite : string) : string := "total for " +:+ suite.

Definition _analyze (a : args) : M unit :=
  let tests := candidates a in
  (test_summaries <- lift (load_summaries a tests []) ;;
   (if (0 <? length test_summaries)%nat then ret tt else raise AssertionError) ;;;
   let suite := basename (test_dir a) in
   (if negb (skip_init a) then cov_init a tests suite else ret tt) ;;;
   vars <- analyze_tests a (iteritems test_summaries)
             {| test_coverage := []; output := None; summary := None |} ;;
   out <- local "output" (output vars) ;;
   coverage <- lift (read_coverage out) ;;
   let test_cov := dict_set (total_label suite) coverage (test_coverage vars) in
   (if truthy (html_output a) then check_call (genhtml_cmd a suite) else ret tt) ;;;
   summ <- local "summary" (summary vars) ;;
   rev <- getitem summ "ceph-sha1" ;;
   store_coverage a test_cov rev suite)%M.

End Programs.

(** [summary.get('description', test)] *)
Definition description (test : string) (summ : summary_doc) : string :=
  default test (summ !! "description").

(** The effects of one turn of the loop over the tests. *)
Definition test_events (a : args) (test : string) : list event :=
  [EvPopen (analyze_cmd a test);
   EvPopen (merge_cmd a test);
   EvRename (join (lcov_output a) "total_tmp.lcov") (join (lcov_output a) "total.lcov")].

(** The dict that the loop over the tests builds, visiting [items] in
    their order: each report is parsed and stored under the description
    of its test. *)
Fixpoint store_coverages (W : world) (a : args) (items : list (string * summary_doc))
    (d : pydict (list metric)) : result (pydict (list metric)) :=
  match items with
  | [] => Ok d
  | (test, summ) :: rest =>
      (coverage <- read_coverage (stdout_of W (analyze_cmd a test)) ;;
       store_coverages W a rest (dict_set (description test summ) coverage d))%result
  end.

(** A call of the initializer. *)
Definition is_init_call (a : args) (ev : event) : bool :=
  match ev with
  | EvCheckCall (prog :: _) => String.eqb prog (join (cov_tools_dir a) "cov-init.sh")
  | _ => false
  end.

(** The same world with other contents in its files. *)
Definition with_file_content (W : world) (content : string -> option string) : world :=
  {| os_listdir := os_listdir W;
     os_path_isdir := os_path_isdir W;
     os_path_exists := os_path_exists W;
     file_content := content;
     yaml_safe_load_all := yaml_safe_load_all W;
     exit_status := exit_status W;
     stdout_of := stdout_of W;
     db_fault := db_fault W;
     db_partial := db_partial W |}.

(** Every run of [m] adds events that satisfy [P], and only adds. *)
Definition emits {A : Type} (P : event -> Prop) (m : M A) : Prop :=
  forall s r s', m s = (r, s') -> exists evs, trace s' = trace s ++ evs /\ Forall P evs.

(** The tests handed to the analyzer, in the order of the calls. *)
Definition analyzed_tests (evs : list event) : list string :=
  omap (fun ev =>
          match ev with
          | EvPopen [_; "-t"; _; "-d"; _; "-o"; test] => Some test
          | _ => None
          end) evs.

(** The merged summary of a test marks it as a coverage run. *)
Definition coverage_enabled (W : world) (a : args) (test : string) : Prop :=
  load_summary W a test !! "flavor" = Some "gcov".

#[global] Instance coverage_enabled_dec (W : world) (a : args) (test : string) :
  Decision (coverage_enabled W a test).
Proof. unfold coverage_enabled. apply _. Defined.


Definition initial (rows : list row) : sys :=
  {| trace := []; db := {| committed := rows; pending := []; connected := false |} |}.

(** ** Concrete worlds *)

(** An entry of the results directory: its name, whether it is a
    directory, the documents of its [summary.yaml] and the content of its
    [ceph-sha1] file, where they exist. *)
Record dir_entry : Type := {
  de_name : string;
  de_isdir : bool;
  de_summary : option (list summary_doc);
  de_sha1 : option string
}.

Definition at_path (root : string) (entries : list dir_entry) (rel : option string)
    (p : string) : option dir_entry :=
  List.find
    (fun e =>
       String.eqb p
         (match rel with
          | Some f => join (join root (de_name e)) f
          | None => join root (de_name e)
          end))
    entries.

(** The world in which [root] holds [entries], the tools exit with
    [status] and print [stdout], and the database driver fails as [fault]
    says. *)
Definition world_of (root : string) (entries : list dir_entry)
    (status : list string -> Z) (stdout : list string -> string)
    (fault : db_op -> option exn) (partial : nat) : world :=
  {| os_listdir := fun p => if String.eqb p root then map de_name entries else [];
     os_path_isdir := fun p =>
       match at_path root entries None p with
       | Some e => de_isdir e
       | None => false
       end;
     os_path_exists := fun p =>
       match at_path root entries (Some "summary.yaml") p,
             at_path root entries (Some "ceph-sha1") p with
       | Some e, _ => de_isdir e && bool_decide (is_Some (de_summary e))
       | None, Some e => de_isdir e && bool_decide (is_Some (de_sha1 e))
       | None, None => bool_decide (is_Some (at_path root entries None p))
       end;
     file_content := fun p =>
       match at_path root entries (Some "ceph-sha1") p with
       | Some e => if de_isdir e then de_sha1 e else None
       | None => None
       end;
     yaml_safe_load_all := fun p =>
       match at_path root entries (Some "summary.yaml") p with
       | Some e => if de_isdir e then default [] (de_summary e) else []
       | None => []
       end;
     exit_status := status;
     stdout_of := stdout;
     db_fault := fault;
     db_partial := partial |}.

Definition nl : string := String Str.LF "".

(** What lcov prints at the end of a run. *)
Definition report3 : string :=
  "Reading tracefile /out/total.lcov" +:+ nl +:+
  "Summary coverage rate:" +:+ nl +:+
  "  lines......: 85.3% (120 of 140)" +:+ nl +:+
  "  functions..: 90.0% (9 of 10)" +:+ nl +:+
  "  branches...: 50.0% (4 of 8)" +:+ nl.

(** A report whose functions line is printed twice. *)
Definition report_twice : string :=
  "  lines......: 10.0% (1 of 10)" +:+ nl +:+
  "  functions..: 30.0% (3 of 10)" +:+ nl +:+
  "  functions..: 40.0% (4 of 10)" +:+ nl +:+
  "  branches...: 50.0% (5 of 10)" +:+ nl.

(** Two summaries, one after the other. *)
Definition report_two_runs : string := report_twice +:+ report3.

(** A result directory with a two-document [summary.yaml] and a
    [ceph-sha1] file. *)
Definition run_dir (name flavor : string) (description : option string)
    (sha1_in_summary sha1_in_file : string) : dir_entry :=
  {| de_name := name; de_isdir := true;
     de_summary :=
       Some [ match description with
              | Some d => {[ "flavor" := flavor; "description" := d ]}
              | None => {[ "flavor" := flavor ]}
              end;
              {[ "ceph-sha1" := sha1_in_summary ]} ];
     de_sha1 := Some sha1_in_file |}.

Definition gcov_run (name sha1 : string) : dir_entry :=
  run_dir name "gcov" None sha1 sha1.

Definition cfg : gmap string string :=
  list_to_map [("coverage_db_host", "h"); ("coverage_db_user", "u");
               ("coverage_db_name", "n"); ("coverage_db_password", "p");
               ("ceph_build_output_dir", "/build")].

Definition args0 : args :=
  {| test_dir := "/r/suite"; lcov_output := "/out"; html_output := None;
     cov_tools_dir := "../../coverage"; skip_init := false;
     teuthology_config := cfg |}.

Definition no_fault : db_op -> option exn := fun _ => None.

(** Three coverage runs, a hidden directory and a plain file. *)
Definition W0 : world :=
  world_of "/r/suite"
    [gcov_run "c" "s3"; gcov_run "a" "s1"; gcov_run "b" "s2";
     {| de_name := ".hid"; de_isdir := true; de_summary := Some []; de_sha1 := Some "x" |};
     {| de_name := "coverage.log"; de_isdir := false; de_summary := None; de_sha1 := None |}]
    (fun _ => 0) (fun _ => report3) no_fault 0.

(** The first directory in name order is no coverage run. *)
Definition W_mixed : world :=
  world_of "/r/suite"
    [run_dir "b" "gcov" None "s2" "s2"; run_dir "a" "notcmalloc" None "s1" "s1"]
    (fun _ => 0) (fun _ => report3) no_fault 0.

(** Two coverage runs with descriptions, whose [ceph-sha1] files hold
    another identifier than their summaries. *)
Definition W_described : world :=
  world_of "/r/suite"
    [run_dir "a" "gcov" (Some "test-a") "2222" "1111";
     run_dir "b" "gcov" (Some "test-b") "4444" "3333"]
    (fun _ => 0) (fun _ => report3) no_fault 0.

(** No directory is a coverage run. *)
Definition W_none : world :=
  world_of "/r/suite"
    [run_dir "a" "notcmalloc" None "s1" "s1"; run_dir "b" "default" None "s2" "s2"]
    (fun _ => 0) (fun _ => report3) no_fault 0.

(** The driver fails in [executemany] after it has sent one row. *)
Definition W_insert_fails : world :=
  world_of "/r/suite" [gcov_run "a" "s1"] (fun _ => 0) (fun _ => report3)
    (fun op => match op with
               | OpExecutemany => Some (DatabaseError "Data too long for column")
               | _ => None
               end) 1.

Definition dataset0 : pydict (list metric) :=
  [("a", [Some (Some 120, Some (S754_finite false 6002453878354739 (-46)));
          Some (Some 9, Some (S754_finite false 6333186975989760 (-46)));
          Some (None, None)]);
   ("total for suite",
         [Some (Some 120, Some (S754_finite false 6002453878354739 (-46)));
          Some (Some 9, Some (S754_finite false 6333186975989760 (-46)));
          Some (None, None)])].

(** The three metric lines of a report, and what they stand for. *)
Definition report_lines : list string :=
  ["  lines......: 85.3% (120 of 140)";
   "  functions..: 90.0% (9 of 10)";
   "  branches...: 50.0% (4 of 8)"].

(** The binary64 numbers nearest to 85.3, 90 and 50. *)
Definition f85_3 : float := S754_finite false 6002453878354739 (-46).
Definition f90_0 : float := S754_finite false 6333186975989760 (-46).
Definition f50_0 : float := S754_finite false 7036874417766400 (-47).

(** 10, 30 and 40 as binary64 numbers. *)
Definition f10_0 : float := S754_finite false 5629499534213120 (-49).
Definition f30_0 : float := S754_finite false 8444249301319680 (-48).
Definition f40_0 : float := S754_finite false 5629499534213120 (-47).

Definition report_metrics : list metric :=
  [Some (Some 120, Some f85_3); Some (Some 9, Some f90_0); Some (Some 4, Some f50_0)].

(** What the scan keeps true of the list: three entries, each [None] or
    the value of a scanned line that starts with the entry's prefix. *)
Definition from_lines (lines : list string) (coverage : list metric) : Prop :=
  length coverage = 3%nat /\
  forall i m, coverage !! i = Some m ->
    m = None \/
    exists p v line, m = Some v /\ prefixes !! i = Some p /\ line ∈ lines /\
                     Str.startswith line p = true /\ line_metric p line = Ok v.

(** A line that starts with one of the metric prefixes. *)
Definition metric_line (line : string) : Prop := is_Some (first_match line).

#[global] Instance metric_line_dec (line : string) : Decision (metric_line line).
Proof. unfold metric_line. apply _. Defined.

(** The keys of the configuration that [connect_to_db] reads, in the
    order in which it reads them. *)
Definition db_keys : list string :=
  ["coverage_db_host"; "coverage_db_user"; "coverage_db_name"; "coverage_db_password"].

(** A call on the database driver. *)
Definition is_db_event (ev : event) : bool :=
  match ev with
  | EvCheckCall _ | EvPopen _ | EvCopy _ _ | EvRename _ _ => false
  | _ => true
  end.

(** Every run of [m] leaves the database alone: its state is kept and
    no call on the driver is made. *)
Definition quiet {A : Type} (m : M A) : Prop :=
  forall s r s', m s = (r, s') ->
    db s' = db s /\
    exists evs, trace s' = trace s ++ evs /\ Forall (fun ev => is_db_event ev = false) evs.

(** The summary of the second run has no flavor. *)
Definition W_no_flavor : world :=
  world_of "/r/suite"
    [gcov_run "a" "s1";
     {| de_name := "b"; de_isdir := true;
        de_summary := Some [ {[ "description" := "broken" ]} ];
        de_sha1 := Some "s2" |}]
    (fun _ => 0) (fun _ => report3) no_fault 0.

(** The driver fails where the fault says, and nowhere else. *)
Definition fails_at (op : db_op) (e : exn) : db_op -> option exn :=
  fun op' => if bool_decide (op' = op) then Some e else None.

(** The server accepts the connection and then fails the statement that
    turns autocommit off. *)
Definition W_autocommit_fails : world :=
  world_of "/r/suite" [gcov_run "a" "s1"] (fun _ => 0) (fun _ => report3)
    (fails_at OpAutocommit (DatabaseError "MySQL server has gone away")) 0.

(** From [s] to [s1] the database was left alone: its state is the same
    and no call on the driver is in between. *)
Definition reaches (s s1 : sys) : Prop :=
  db s1 = db s /\
  exists evs, trace s1 = trace s ++ evs /\ Forall (fun ev => is_db_event ev = false) evs.

Definition is_copy (ev : event) : bool :=
  match ev with
  | EvCopy _ _ => true
  | _ => false
  end.

(** The same world in which the tools exit with [status]. *)
Definition with_exit_status (W : world) (status : list string -> Z) : world :=
  {| os_listdir := os_listdir W;
     os_path_isdir := os_path_isdir W;
     os_path_exists := os_path_exists W;
     file_content := file_content W;
     yaml_safe_load_all := yaml_safe_load_all W;
     exit_status := status;
     stdout_of := stdout_of W;
     db_fault := db_fault W;
     db_partial := db_partial W |}.

(** The arguments of a run that writes the HTML report. *)
Definition args_html : args :=
  {| test_dir := "/r/suite"; lcov_output := "/out"; html_output := Some "/html";
     cov_tools_dir := "../../coverage"; skip_init := false;
     teuthology_config := cfg |}.

(** The arguments of a run with [--skip-init]. *)
Definition args_skip : args :=
  {| test_dir := "/r/suite"; lcov_output := "/out"; html_output := None;
     cov_tools_dir := "../../coverage"; skip_init := true;
     teuthology_config := cfg |}.

(** [genhtml] exits with 1, every other tool with 0. *)
Definition W_genhtml_fails : world :=
  world_of "/r/suite" [gcov_run "a" "s1"]
    (fun cmd => match cmd with "genhtml" :: _ => 1 | _ => 0 end)
    (fun _ => report3) no_fault 0.

(** The analyzer of test [a] exits with 2, every other tool with 0. *)
Definition analyzer_fails (cmd : list string) : Z :=
  if bool_decide (cmd = analyze_cmd args0 "a") then 2 else 0.

(** * Properties *)

(** ** Strings *)

Lemma startswith_app (s p : string) :
  Str.startswith s p = true <-> exists r, s = p +:+ r.
Proof.
  revert s. induction p as [|a p IH]; intros s; simpl.
  - split; [intros _; by exists s | done].
  - destruct s as [|b s].
    + split; [done | intros [r Hr]; discriminate].
    + rewrite andb_true_iff, IH. split.
      * intros [Hab [r ->]]. apply Ascii.eqb_eq in Hab as ->. eauto.
      * intros [r Hr]. injection Hr as -> ->. split; [apply Ascii.eqb_refl | eauto].
Qed.

Lemma prefixes_lookup_lt (i : nat) (p : string) :
  prefixes !! i = Some p -> (i < 3)%nat.
Proof. intros H. by apply lookup_lt_Some in H. Qed.

Lemma first_match_spec (line : string) :
  match first_match line with
  | Some (i, p) => prefixes !! i = Some p /\ Str.startswith line p = true
  | None => forall p, p ∈ prefixes -> Str.startswith line p = false
  end.
Proof.
  unfold first_match, enumerate, prefixes. simpl.
  repeat (match goal with
          | |- context [if ?b then _ else _] => destruct b eqn:?
          end; [split; [reflexivity | assumption] |]).
  intros p Hp. repeat (apply elem_of_cons in Hp as [->|Hp]; [assumption|]).
  by apply elem_of_nil in Hp.
Qed.

(** The three prefixes are distinct strings of one length: a line starts
    with at most one of them. *)
Lemma first_match_prefix (line : string) (i : nat) (p : string) :
  prefixes !! i = Some p -> Str.startswith line p = true ->
  first_match line = Some (i, p).
Proof.
  intros Hi Hp. apply startswith_app in Hp as [r ->].
  destruct i as [|[|[|i]]]; simpl in Hi; try discriminate;
    injection Hi as <-; reflexivity.
Qed.

Lemma match_prefixes_first (line : string) (coverage : list metric) :
  match_prefixes (enumerate prefixes) line coverage =
  match first_match line with
  | Some (i, p) => (v <- line_metric p line ;; Ok (<[i := Some v]> coverage))%result
  | None => Ok coverage
  end.
Proof.
  unfold first_match. generalize (enumerate prefixes) as ps.
  induction ps as [|[i p] ps IH]; simpl; [done|].
  destruct (Str.startswith line p); [|exact IH].
  unfold line_metric. destruct (Str.contains "%" line); [|done].
  destruct (py_int _); simpl; [|done]. destruct (py_float _); done.
Qed.

(** ** The scan of [read_coverage] *)

Lemma line_metric_shape (p line : string) (v : option Z * option float) :
  line_metric p line = Ok v ->
  v = (None, None) \/ exists n x, v = (Some n, Some x).
Proof.
  unfold line_metric. destruct (Str.contains "%" line).
  - destruct (py_int _) as [n|]; simpl; [|done].
    destruct (py_float _) as [x|]; simpl; [|done].
    intros [= <-]. eauto.
  - intros [= <-]. by left.
Qed.

Lemma line_metric_no_data (p line : string) :
  Str.contains "%" line = false -> line_metric p line = Ok (None, None).
Proof. unfold line_metric. by intros ->. Qed.

(** One turn of the outer loop. *)
Lemma scan_lines_cons (line : string) (rest : list string) (coverage : list metric) :
  scan_lines (line :: rest) coverage =
  (coverage' <- match_prefixes (enumerate prefixes) line coverage ;;
   if none_not_in coverage' then Ok coverage' else scan_lines rest coverage')%result.
Proof. reflexivity. Qed.

(** What one line does to the list: nothing, or one assignment. *)
Lemma match_prefixes_inv (line : string) (coverage coverage' : list metric) :
  match_prefixes (enumerate prefixes) line coverage = Ok coverage' ->
  (first_match line = None /\ coverage' = coverage) \/
  (exists i p v, first_match line = Some (i, p) /\ prefixes !! i = Some p /\
                 Str.startswith line p = true /\ line_metric p line = Ok v /\
                 coverage' = <[i := Some v]> coverage).
Proof.
  rewrite match_prefixes_first. pose proof (first_match_spec line) as Hs.
  destruct (first_match line) as [[i p]|].
  - destruct Hs as [Hi Hp]. destruct (line_metric p line) as [v|] eqn:Hv; simpl; [|done].
    intros [= <-]. right. by exists i, p, v.
  - intros [= <-]. by left.
Qed.

(** A property of the list that every line keeps holds of the result. *)
Lemma scan_lines_invariant (P : list metric -> Prop) (lines : list string) :
  (forall line coverage coverage',
      line ∈ lines -> P coverage ->
      match_prefixes (enumerate prefixes) line coverage = Ok coverage' -> P coverage') ->
  forall coverage r, P coverage -> scan_lines lines coverage = Ok r -> P r.
Proof.
  induction lines as [|line rest IH]; intros Hstep coverage r HP.
  - by intros [= <-].
  - rewrite scan_lines_cons.
    destruct (match_prefixes _ line coverage) as [coverage'|] eqn:Hm; [simpl|done].
    assert (P coverage') as HP' by (eapply Hstep; [left | exact HP | exact Hm]).
    destruct (none_not_in coverage').
    + by intros [= <-].
    + apply IH; [|exact HP']. intros l c c' Hl. apply Hstep. by right.
Qed.

Lemma none_not_in_spec (coverage : list metric) :
  none_not_in coverage = true <-> forall i m, coverage !! i = Some m -> is_Some m.
Proof.
  unfold none_not_in. rewrite forallb_forall. split.
  - intros H i m Hi. apply list_elem_of_lookup_2, list_elem_of_In, H in Hi.
    by destruct m.
  - intros H m Hm. apply list_elem_of_In, list_elem_of_lookup_1 in Hm as [i Hi].
    by destruct (H i m Hi) as [? ->].
Qed.

(** ** Lines without data *)

(** C9. A line that starts with a metric prefix and holds no [%] makes
    the loop body store the pair (None, None) in that metric's slot and
    raise nothing; a report made of that line alone parses to a list with
    that pair in the slot. *)
Theorem no_data_line_recorded (i : nat) (prefix line : string) (coverage : list metric) :
  prefixes !! i = Some prefix ->
  Str.startswith line prefix = true ->
  Str.contains "%" line = false ->
  match_prefixes (enumerate prefixes) line coverage
    = Ok (<[i := Some (None, None)]> coverage)
  /\ (forall output, Str.splitlines output = [line] ->
      read_coverage output = Ok (<[i := Some (None, None)]> [None; None; None])).
Proof.
  intros Hi Hp Hc.
  assert (forall c, match_prefixes (enumerate prefixes) line c
                    = Ok (<[i := Some (None, None)]> c)) as Hstep.
  { intros c. rewrite match_prefixes_first, (first_match_prefix line i prefix Hi Hp).
    by rewrite line_metric_no_data. }
  split; [apply Hstep|].
  intros output Hl. unfold read_coverage. rewrite Hl. change (reverse [line]) with [line].
  rewrite scan_lines_cons, Hstep. simpl.
  by destruct (none_not_in _).
Qed.

Lemma no_data_line_recorded_witness :
  match_prefixes (enumerate prefixes) "  branches...: no data found" [None; None; None]
    = Ok [None; None; Some (None, None)]
  /\ (forall output, Str.splitlines output = ["  branches...: no data found"] ->
      read_coverage output = Ok [None; None; Some (None, None)]).
Proof.
  apply (no_data_line_recorded 2 "  branches...: " "  branches...: no data found"
           [None; None; None]); reflexivity.
Defined.

(** ** The report with all three metrics *)

Lemma report_line_metric (i : nat) (l : string) :
  report_lines !! i = Some l ->
  exists p v, first_match l = Some (i, p) /\ line_metric p l = Ok v /\
              report_metrics !! i = Some (Some v).
Proof.
  destruct i as [|[|[|i]]]; simpl; try discriminate; intros [= <-];
    eexists _, _; (split; [|split]); vm_compute; reflexivity.
Qed.

Lemma scan_report (lines : list string) :
  (forall l, l ∈ lines -> l ∈ report_lines \/ first_match l = None) ->
  forall coverage,
    length coverage = 3%nat ->
    (forall i l, report_lines !! i = Some l ->
       coverage !! i = report_metrics !! i \/ (coverage !! i = Some None /\ l ∈ lines)) ->
    scan_lines lines coverage = Ok report_metrics.
Proof.
  assert (forall c : list metric, length c = 3%nat ->
            (forall i l, report_lines !! i = Some l -> c !! i = report_metrics !! i) ->
            c = report_metrics) as Hfull.
  { intros c Hlen H. apply list_eq. intros [|[|[|i]]];
      [by eapply H; reflexivity ..|].
    rewrite !lookup_ge_None_2; [done| |]; simpl; lia. }
  assert (forall c : list metric, none_not_in c = true ->
            forall i, c !! i = Some None -> False) as Hnone.
  { intros c Hc i Hi. apply none_not_in_spec with (i := i) (m := None) in Hc; [|done].
    by destruct Hc. }
  induction lines as [|line rest IH]; intros Hl coverage Hlen Hinv.
  - f_equal. apply Hfull; [done|]. intros i l Hil.
    destruct (Hinv i l Hil) as [?|[_ Hin]]; [done|]. by apply elem_of_nil in Hin.
  - rewrite scan_lines_cons, match_prefixes_first.
    assert (forall l, l ∈ rest -> l ∈ report_lines \/ first_match l = None) as Hl'
      by (intros l Hin; apply Hl; by right).
    destruct (Hl line) as [Hin|Hno]; [by left| |].
    + apply list_elem_of_lookup_1 in Hin as [j Hj].
      destruct (report_line_metric j line Hj) as (p & v & -> & -> & Hv). simpl.
      assert (forall i l, report_lines !! i = Some l ->
                (<[j := Some v]> coverage) !! i = report_metrics !! i \/
                ((<[j := Some v]> coverage) !! i = Some None /\ l ∈ rest)) as Hinv'.
      { intros i l Hil. destruct (decide (i = j)) as [->|Hne].
        - left. rewrite list_lookup_insert_eq; [exact (eq_sym Hv)|].
          apply lookup_lt_Some in Hj. simpl in Hj. lia.
        - rewrite !list_lookup_insert_ne by done.
          destruct (Hinv i l Hil) as [?|[Hnone' Hin]]; [by left|]. right. split; [done|].
          apply elem_of_cons in Hin as [->|?]; [|done].
          destruct (report_line_metric i line Hil) as (p' & v' & Hf & _).
          destruct (report_line_metric j line Hj) as (p'' & v'' & Hf' & _).
          congruence. }
      destruct (none_not_in _) eqn:Hfin.
      * f_equal. apply Hfull; [by rewrite length_insert|]. intros i l Hil.
        destruct (Hinv' i l Hil) as [?|[Hn _]]; [done|]. by destruct (Hnone _ Hfin i Hn).
      * apply IH; [done | by rewrite length_insert | done].
    + rewrite Hno. simpl.
      assert (forall i l, report_lines !! i = Some l ->
                coverage !! i = report_metrics !! i \/
                (coverage !! i = Some None /\ l ∈ rest)) as Hinv'.
      { intros i l Hil. destruct (Hinv i l Hil) as [?|[Hnone' Hin]]; [by left|].
        right. split; [done|]. apply elem_of_cons in Hin as [->|?]; [|done].
        destruct (report_line_metric i line Hil) as (p' & v' & Hf & _). congruence. }
      destruct (none_not_in _) eqn:Hfin.
      * f_equal. apply Hfull; [done|]. intros i l Hil.
        destruct (Hinv' i l Hil) as [?|[Hn _]]; [done|]. by destruct (Hnone _ Hfin i Hn).
      * by apply IH.
Qed.

(** C8. A report that holds the three metric lines
    "  lines......: 85.3% (120 of 140)", "  functions..: 90.0% (9 of 10)"
    and "  branches...: 50.0% (4 of 8)", in any order and any number of
    times, among lines that start with no metric prefix, parses to exactly
    [(120, 85.3), (9, 90.0), (4, 50.0)]. *)
Theorem read_coverage_report (output : string) :
  (forall l, l ∈ Str.splitlines output -> l ∈ report_lines \/ first_match l = None) ->
  (forall l, l ∈ report_lines -> l ∈ Str.splitlines output) ->
  read_coverage output = Ok report_metrics.
Proof.
  intros Hl Hall. unfold read_coverage. apply scan_report.
  - intros l Hin. apply Hl. by apply elem_of_reverse.
  - done.
  - intros i l Hil. right. split.
    + apply lookup_lt_Some in Hil. simpl in Hil.
      destruct i as [|[|[|i]]]; simpl; try done; lia.
    + apply elem_of_reverse, Hall. by eapply list_elem_of_lookup_2.
Qed.

Lemma read_coverage_report_witness : read_coverage report3 = Ok report_metrics.
Proof.
  apply (read_coverage_report report3).
  - intros l Hl. change (Str.splitlines report3)
      with ("Reading tracefile /out/total.lcov" :: "Summary coverage rate:" :: report_lines) in Hl.
    apply elem_of_cons in Hl as [->|Hl]; [by right|].
    apply elem_of_cons in Hl as [->|Hl]; [by right|]. by left.
  - intros l Hl. change (Str.splitlines report3)
      with ("Reading tracefile /out/total.lcov" :: "Summary coverage rate:" :: report_lines).
    by do 2 right.
Defined.

(** ** The shape of the result *)

Lemma scan_lines_from_lines (lines : list string) (r : list metric) :
  scan_lines lines [None; None; None] = Ok r -> from_lines lines r.
Proof.
  apply scan_lines_invariant.
  - intros line c c' Hin [Hlen Hc] Hm.
    apply match_prefixes_inv in Hm as [[_ ->]|(j & p & v & _ & Hj & Hp & Hv & ->)]; [done|].
    split; [by rewrite length_insert|]. intros i m.
    destruct (decide (i = j)) as [->|Hne].
    + rewrite list_lookup_insert_eq by (apply prefixes_lookup_lt in Hj; lia).
      intros [= <-]. right. by exists p, v, line.
    + rewrite list_lookup_insert_ne by done. apply Hc.
  - split; [done|]. intros [|[|[|i]]] m; simpl; intros [= <-]; by left.
Qed.

Lemma flatten_assigned (coverage : list metric) :
  length coverage = 3%nat -> none_not_in coverage = true ->
  exists items, flatten coverage = Ok items /\ length items = 6%nat.
Proof.
  destruct coverage as [|[[a1 b1]|] [|[[a2 b2]|] [|[[a3 b3]|] [|]]]]; try done.
  intros _ _. by eexists.
Qed.

(** C2, as the code has it. A list returned by [read_coverage] has
    exactly three entries, in the order lines, functions, branches: an
    entry is [None] (the metric was not assigned) or a pair whose two
    fields are both absent or both present, and a pair in a slot comes
    from a line that starts with that slot's prefix. A metric none of
    whose lines occurs in the text keeps the entry [None], which is no
    pair; the flattening of [store_coverage] yields its six columns when
    all three metrics were assigned. *)
Theorem read_coverage_shape (output : string) (coverage : list metric) :
  read_coverage output = Ok coverage ->
  length coverage = 3%nat
  /\ (forall i m, coverage !! i = Some m ->
        m = None \/ m = Some (None, None) \/ exists n x, m = Some (Some n, Some x))
  /\ (forall i p v, prefixes !! i = Some p -> coverage !! i = Some (Some v) ->
        exists line, line ∈ Str.splitlines output /\ Str.startswith line p = true /\
                     line_metric p line = Ok v)
  /\ (forall i p, prefixes !! i = Some p ->
        (forall line, line ∈ Str.splitlines output -> Str.startswith line p = false) ->
        coverage !! i = Some None)
  /\ (none_not_in coverage = true ->
        exists items, flatten coverage = Ok items /\ length items = 6%nat).
Proof.
  intros H. apply scan_lines_from_lines in H as [Hlen Hc].
  split; [done|]. split; [|split; [|split]].
  - intros i m Hi. destruct (Hc i m Hi) as [?|(p & v & line & -> & _ & _ & _ & Hv)]; [by left|].
    right. destruct (line_metric_shape _ _ _ Hv) as [->|(n & x & ->)]; eauto.
  - intros i p v Hp Hi.
    destruct (Hc i _ Hi) as [?|(p' & v' & line & [= <-] & Hp' & Hin & Hs & Hv)]; [done|].
    assert (p' = p) as -> by congruence.
    exists line. by rewrite <- elem_of_reverse.
  - intros i p Hp Hno. destruct (coverage !! i) as [m|] eqn:Hi.
    + destruct (Hc i m Hi) as [->|(p' & v' & line & _ & Hp' & Hin & Hs & _)]; [done|].
      assert (p' = p) as -> by congruence.
      rewrite elem_of_reverse in Hin. rewrite (Hno line Hin) in Hs. done.
    + apply lookup_ge_None in Hi. apply prefixes_lookup_lt in Hp. lia.
  - by apply flatten_assigned.
Qed.

Lemma read_coverage_shape_witness :
  let coverage := [Some (Some 120, Some f85_3); None; Some (None, None)] in
  length coverage = 3%nat
  /\ (forall i m, coverage !! i = Some m ->
        m = None \/ m = Some (None, None) \/ exists n x, m = Some (Some n, Some x))
  /\ (forall i p v, prefixes !! i = Some p -> coverage !! i = Some (Some v) ->
        exists line,
          line ∈ ["  lines......: 85.3% (120 of 140)"; "  branches...: no data found"] /\
          Str.startswith line p = true /\ line_metric p line = Ok v)
  /\ (forall i p, prefixes !! i = Some p ->
        (forall line,
            line ∈ ["  lines......: 85.3% (120 of 140)"; "  branches...: no data found"] ->
            Str.startswith line p = false) ->
        coverage !! i = Some None)
  /\ (none_not_in coverage = true ->
        exists items, flatten coverage = Ok items /\ length items = 6%nat).
Proof.
  exact (read_coverage_shape
           ("  lines......: 85.3% (120 of 140)" +:+ nl +:+ "  branches...: no data found")
           [Some (Some 120, Some f85_3); None; Some (None, None)] eq_refl).
Defined.

(** The claim of C2 fails on the empty report: the three entries are
    [None], not pairs, and flattening them is a [TypeError], where three
    absent pairs flatten to six empty columns. *)
Lemma unassigned_is_no_pair :
  read_coverage "" = Ok [None; None; None]
  /\ flatten [None; None; None] = Raise TypeError
  /\ flatten [Some (None, None); Some (None, None); Some (None, None)]
     = Ok [PyNone; PyNone; PyNone; PyNone; PyNone; PyNone].
Proof. by repeat split. Qed.

(** ** Which line wins *)

(** A line that does not start with a prefix leaves that prefix's slot
    as it is. *)
Lemma match_prefixes_other (line : string) (c c' : list metric) (i : nat) (p : string) :
  match_prefixes (enumerate prefixes) line c = Ok c' ->
  prefixes !! i = Some p -> Str.startswith line p = false ->
  c' !! i = c !! i.
Proof.
  intros Hm Hi Hp.
  apply match_prefixes_inv in Hm as [[_ ->]|(j & q & v & _ & Hj & Hq & _ & ->)]; [done|].
  apply list_lookup_insert_ne. intros ->. congruence.
Qed.

(** A line that starts with a prefix assigns that prefix's slot. *)
Lemma match_prefixes_assigns (line : string) (c c' : list metric) (i : nat) (p : string) :
  match_prefixes (enumerate prefixes) line c = Ok c' ->
  length c = 3%nat ->
  prefixes !! i = Some p -> Str.startswith line p = true ->
  exists v, line_metric p line = Ok v /\ c' !! i = Some (Some v).
Proof.
  intros Hm Hlen Hi Hp. rewrite match_prefixes_first in Hm.
  rewrite (first_match_prefix line i p Hi Hp) in Hm.
  destruct (line_metric p line) as [v|]; [|done]. injection Hm as <-.
  exists v. split; [done|]. apply list_lookup_insert_eq.
  apply prefixes_lookup_lt in Hi. lia.
Qed.

(** An assigned slot stays assigned. *)
Lemma match_prefixes_keeps (line : string) (c c' : list metric) (i : nat) :
  match_prefixes (enumerate prefixes) line c = Ok c' ->
  (exists v, c !! i = Some (Some v)) -> exists v, c' !! i = Some (Some v).
Proof.
  intros Hm [v Hv].
  apply match_prefixes_inv in Hm as [[_ ->]|(j & q & w & _ & Hj & _ & _ & ->)]; [eauto|].
  destruct (decide (i = j)) as [->|Hne].
  - exists w. apply list_lookup_insert_eq. by eapply lookup_lt_Some.
  - exists v. by rewrite list_lookup_insert_ne.
Qed.

Lemma match_prefixes_length (line : string) (c c' : list metric) :
  match_prefixes (enumerate prefixes) line c = Ok c' -> length c' = length c.
Proof.
  intros Hm. apply match_prefixes_inv in Hm as [[_ ->]|(j & q & w & _ & _ & _ & _ & ->)];
    [done | apply length_insert].
Qed.

(** The scan of a list in two parts: the second part is scanned only if
    the first part left a metric unassigned. *)
Lemma scan_lines_app (xs ys : list string) (c r : list metric) :
  none_not_in c = false ->
  scan_lines (xs ++ ys) c = Ok r ->
  exists r', scan_lines xs c = Ok r' /\
             if none_not_in r' then r = r' else scan_lines ys r' = Ok r.
Proof.
  revert c. induction xs as [|x xs IH]; intros c Hc H.
  - exists c. by rewrite Hc.
  - change ((x :: xs) ++ ys) with (x :: (xs ++ ys)) in H.
    rewrite scan_lines_cons in *.
    destruct (match_prefixes _ x c) as [c1|]; [simpl in *|done].
    destruct (none_not_in c1) eqn:Hc1.
    + injection H as <-. exists c1. by rewrite Hc1.
    + by apply IH.
Qed.

(** Once a line that starts with a prefix lies in the scanned list, the
    prefix's slot is assigned in the result: by that line, by one scanned
    before it, or because the scan stopped with all three assigned. *)
Lemma scan_lines_assigned (xs : list string) (c r : list metric) (i : nat) (p line : string) :
  length c = 3%nat ->
  scan_lines xs c = Ok r ->
  prefixes !! i = Some p -> line ∈ xs -> Str.startswith line p = true ->
  exists v, r !! i = Some (Some v).
Proof.
  intros Hlen H Hi Hin Hp. revert c Hlen H.
  induction xs as [|x xs IH]; intros c Hlen H; [by apply elem_of_nil in Hin|].
  rewrite scan_lines_cons in H.
  destruct (match_prefixes _ x c) as [c1|] eqn:Hm; [simpl in H|done].
  pose proof (match_prefixes_length _ _ _ Hm) as Hlen1.
  destruct (none_not_in c1) eqn:Hc1.
  - injection H as <-.
    destruct (lookup_lt_is_Some_2 c1 i) as [m Him];
      [apply prefixes_lookup_lt in Hi; lia|].
    apply none_not_in_spec with (i := i) (m := m) in Hc1 as [v ->]; eauto.
  - apply elem_of_cons in Hin as [<-|Hin].
    + destruct (match_prefixes_assigns _ _ _ _ _ Hm Hlen Hi Hp) as (v & _ & Hv).
      revert H. apply (scan_lines_invariant (fun c => exists v, c !! i = Some (Some v))); [|eauto].
      intros l c0 c0' _ Hc0 Hm0. by eapply match_prefixes_keeps.
    + apply (IH Hin c1); [lia | done].
Qed.

(** C1, as the code has it. The lines are scanned from the bottom and
    every scanned line that starts with a metric prefix assigns that
    metric; the scan stops once all three metrics are assigned. So the
    bottom-most line [l] of a prefix gives that metric's value when no
    other line with the prefix is scanned: none between [l] and the end
    of the scan ([mid]), where the scan ends at the top of the text or
    at the first point, going up, at which all three prefixes have
    occurred. *)
Theorem bottom_most_line_wins (output : string) (top mid below : list string)
    (l : string) (i : nat) (p : string) (coverage : list metric) :
  Str.splitlines output = top ++ mid ++ l :: below ->
  prefixes !! i = Some p ->
  Str.startswith l p = true ->
  (forall l', l' ∈ mid ++ below -> Str.startswith l' p = false) ->
  (top = [] \/
   forall j q, prefixes !! j = Some q ->
               exists l', l' ∈ mid ++ l :: below /\ Str.startswith l' q = true) ->
  read_coverage output = Ok coverage ->
  exists v, line_metric p l = Ok v /\ coverage !! i = Some (Some v).
Proof.
  intros Hsplit Hi Hp Hother Hstop. unfold read_coverage.
  rewrite Hsplit, reverse_app. intros H.
  apply scan_lines_app in H as (r' & Hr' & Hrest); [|done].
  (* the scanned part ends with the value of [l] in the slot *)
  assert (length r' = 3%nat) as Hlen' by (by apply scan_lines_from_lines in Hr' as [? _]).
  assert (exists v, line_metric p l = Ok v /\ r' !! i = Some (Some v)) as Hv.
  { rewrite reverse_app, reverse_cons, <- app_assoc in Hr'.
    apply scan_lines_app in Hr' as (r1 & Hr1 & Hnext); [|done].
    assert (length r1 = 3%nat /\ r1 !! i = Some None) as [Hlen1 Hnone].
    { revert Hr1. apply (scan_lines_invariant
        (fun c => length c = 3%nat /\ c !! i = Some None)).
      - intros x c c' Hx [Hlen Hc] Hm. split; [by rewrite (match_prefixes_length _ _ _ Hm)|].
        rewrite (match_prefixes_other _ _ _ _ _ Hm Hi); [done|].
        apply Hother. rewrite elem_of_reverse in Hx. rewrite elem_of_app. by right.
      - split; [done|]. apply prefixes_lookup_lt in Hi.
        by destruct i as [|[|[|i]]]; [..|lia]. }
    assert (none_not_in r1 = false) as Hr1f.
    { destruct (none_not_in r1) eqn:E; [|done].
      apply none_not_in_spec with (i := i) (m := None) in E; [by destruct E | done]. }
    rewrite Hr1f in Hnext. change ([l] ++ reverse mid) with (l :: reverse mid) in Hnext.
    rewrite scan_lines_cons in Hnext.
    destruct (match_prefixes _ l r1) as [c2|] eqn:Hm; [simpl in Hnext|done].
    destruct (match_prefixes_assigns _ _ _ _ _ Hm Hlen1 Hi Hp) as (v & Hv & Hc2).
    exists v. split; [done|].
    destruct (none_not_in c2); [by injection Hnext as <-|].
    revert Hnext. apply (scan_lines_invariant (fun c => c !! i = Some (Some v))); [|done].
    intros x c c' Hx Hc Hm'. rewrite (match_prefixes_other _ _ _ _ _ Hm' Hi); [done|].
    apply Hother. rewrite elem_of_reverse in Hx. rewrite elem_of_app. by left. }
  (* and the scan goes no further *)
  enough (r' = coverage) as <- by done.
  destruct (none_not_in r') eqn:Hfull; [done|].
  destruct Hstop as [->|Hall]; [by injection Hrest|].
  exfalso. apply not_true_iff_false in Hfull. apply Hfull, none_not_in_spec.
  intros j m Hj.
  destruct (lookup_lt_is_Some_2 prefixes j) as [q Hq];
    [apply lookup_lt_Some in Hj; unfold prefixes; simpl; lia|].
  destruct (Hall j q Hq) as (l' & Hin & Hl').
  destruct (scan_lines_assigned _ [None; None; None] r' j q l' eq_refl Hr' Hq) as [v Hv'];
    [by apply elem_of_reverse | done |].
  rewrite Hj in Hv'. injection Hv' as ->. eauto.
Qed.

Ltac each_line H :=
  repeat (apply elem_of_cons in H as [->|H]; [reflexivity|]);
  by apply elem_of_nil in H.

Lemma bottom_most_line_wins_witness :
  exists v, line_metric "  functions..: " "  functions..: 90.0% (9 of 10)" = Ok v
            /\ report_metrics !! 1%nat = Some (Some v).
Proof.
  apply (bottom_most_line_wins report_two_runs
           ["  lines......: 10.0% (1 of 10)"; "  functions..: 30.0% (3 of 10)";
            "  functions..: 40.0% (4 of 10)"; "  branches...: 50.0% (5 of 10)";
            "Reading tracefile /out/total.lcov"; "Summary coverage rate:"]
           ["  lines......: 85.3% (120 of 140)"]
           ["  branches...: 50.0% (4 of 8)"]
           "  functions..: 90.0% (9 of 10)" 1 "  functions..: " report_metrics).
  - reflexivity.
  - reflexivity.
  - reflexivity.
  - intros l' H. each_line H.
  - right. intros [|[|[|j]]] q; simpl; intros [= <-].
    + exists "  lines......: 85.3% (120 of 140)". split; [by left | reflexivity].
    + exists "  functions..: 90.0% (9 of 10)". split; [by right; left | reflexivity].
    + exists "  branches...: 50.0% (4 of 8)". split; [by do 2 right; left | reflexivity].
  - reflexivity.
Defined.

(** The claim of C1 fails on a report whose functions line occurs twice
    below the lines line: both lines are matched, and the result holds 3
    and 30.0, the values of the upper one, where the bottom-most functions
    line stands for 4 and 40.0. *)
Lemma upper_line_overwrites :
  read_coverage report_twice
    = Ok [Some (Some 1, Some f10_0); Some (Some 3, Some f30_0); Some (Some 5, Some f50_0)]
  /\ last (filter (fun l => Str.startswith l "  functions..: " = true)
                  (Str.splitlines report_twice))
     = Some "  functions..: 40.0% (4 of 10)"
  /\ line_metric "  functions..: " "  functions..: 40.0% (4 of 10)"
     = Ok (Some 4, Some f40_0).
Proof. by repeat split. Qed.

(** ** Lines with a percentage and no count *)

Lemma substring_split (a b : nat) (s : string) :
  String.substring 0 (a + b) s = String.substring 0 a s +:+ String.substring a b s.
Proof.
  revert s. induction a as [|a IH]; intros s.
  - by destruct b, s.
  - destruct s as [|c s]; [done|]. simpl. by rewrite IH.
Qed.

(** A slice from the start that ends at or past [k] keeps the first [k]
    characters. *)
Lemma slice_keeps (line : string) (stop : Z) (k : nat) :
  Z.of_nat k <= Str.clamp (Str.len line) stop ->
  exists t, Str.slice line 0 stop = String.substring 0 k line +:+ t.
Proof.
  intros Hk. unfold Str.slice.
  assert (Str.clamp (Str.len line) 0 = 0) as -> by (unfold Str.clamp, Str.len; simpl; lia).
  replace (Z.to_nat (Str.clamp (Str.len line) stop - 0))
    with (k + (Z.to_nat (Str.clamp (Str.len line) stop) - k))%nat by lia.
  rewrite substring_split. change (Z.to_nat 0) with 0%nat. eauto.
Qed.

Lemma rstrip_nonspace (c : ascii) (r : string) :
  Str.isspace c = false -> exists x, Str.rstrip (String c r) = String c x.
Proof. intros H. simpl. destruct (Str.rstrip r); rewrite ?H; eauto. Qed.

(** [int()] rejects what starts, after blanks, with a letter. *)
Lemma py_int_rejects (s : string) (c : ascii) (r : string) :
  Str.lstrip s = String c r ->
  Str.isspace c = false -> split_sign (String c "") = (false, String c "") ->
  Str.digit_of c = None ->
  py_int s = Raise ValueError.
Proof.
  intros Hs Hc Hsign Hd. unfold py_int, Str.strip. rewrite Hs.
  destruct (rstrip_nonspace c r Hc) as [x ->].
  assert (split_sign (String c x) = (false, String c x)) as ->.
  { revert Hsign. unfold split_sign.
    destruct c as [[] [] [] [] [] [] [] []]; try done. }
  simpl. by rewrite Hd.
Qed.

Lemma index_cons (c : ascii) (s sub : string) :
  Str.index (String c s) sub =
  if Str.startswith (String c s) sub then Some 0%nat else S <$> Str.index s sub.
Proof. reflexivity. Qed.

(** On a line that starts with a metric prefix, " of" is not found
    before the colon. *)
Lemma find_of_after_prefix (i : nat) (p r : string) :
  prefixes !! i = Some p ->
  Str.find (p +:+ r) " of" = -1 \/ 14 <= Str.find (p +:+ r) " of".
Proof.
  intros Hi. unfold Str.find.
  destruct i as [|[|[|i]]]; simpl in Hi; try discriminate; injection Hi as <-;
    cbv [String.append]; rewrite !index_cons; cbn [Str.startswith Ascii.eqb Bool.eqb andb];
    match goal with
    | |- context [S <$> (if ?b then Some 0%nat else ?e)] =>
        generalize (if b then Some 0%nat else e)
    end;
    (intros [n|]; [right; cbn [fmap option_fmap option_map]; lia | by left]).
Qed.

(** C10. The parser is not total on prefixed lines that hold a [%]: a
    line that starts with a metric prefix, holds a [%] and no "(" makes
    [int()] raise a [ValueError], in the loop body and so for a report
    made of that line, where a line without [%] gives an absent pair. *)
Theorem malformed_count_raises (i : nat) (p line : string) (coverage : list metric) :
  prefixes !! i = Some p ->
  Str.startswith line p = true ->
  Str.contains "%" line = true ->
  Str.contains "(" line = false ->
  match_prefixes (enumerate prefixes) line coverage = Raise ValueError
  /\ (forall output, Str.splitlines output = [line] ->
      read_coverage output = Raise ValueError).
Proof.
  intros Hi Hp Hpct Hparen.
  assert (forall c, match_prefixes (enumerate prefixes) line c = Raise ValueError) as Hstep.
  { intros c. rewrite match_prefixes_first, (first_match_prefix line i p Hi Hp).
    unfold line_metric. rewrite Hpct.
    assert (Str.find line "(" = -1) as ->
      by (unfold Str.find; unfold Str.contains in Hparen; by destruct (Str.index line "(")).
    change (-1 + 1) with 0.
    enough (py_int (Str.slice line 0 (Str.find line " of")) = Raise ValueError) as -> by done.
    apply startswith_app in Hp as [r ->].
    assert (exists c' r', r = String c' r') as (c' & r' & ->).
    { destruct r as [|c' r']; [|eauto]. exfalso.
      destruct i as [|[|[|i]]]; simpl in Hi; try discriminate; injection Hi as <-;
        vm_compute in Hpct; discriminate. }
    destruct (slice_keeps (p +:+ String c' r') (Str.find (p +:+ String c' r') " of") 14)
      as [t Ht].
    { assert (16 <= Str.len (p +:+ String c' r')) as Hlen.
      { unfold Str.len.
        destruct i as [|[|[|i]]]; simpl in Hi; try discriminate; injection Hi as <-;
          cbv [String.append String.length]; lia. }
      change (Z.of_nat 14) with 14.
      destruct (find_of_after_prefix i p (String c' r') Hi) as [->|Hof]; unfold Str.clamp.
      - change (-1 <? 0) with true. cbv iota. lia.
      - destruct (Z.ltb_spec (Str.find (p +:+ String c' r') " of") 0); lia. }
    rewrite Ht.
    destruct i as [|[|[|i]]]; simpl in Hi; try discriminate; injection Hi as <-;
      cbv [String.append String.substring];
      eapply py_int_rejects; try reflexivity. }
  split; [apply Hstep|].
  intros output Hl. unfold read_coverage. rewrite Hl. change (reverse [line]) with [line].
  by rewrite scan_lines_cons, Hstep.
Qed.

Lemma malformed_count_raises_witness :
  match_prefixes (enumerate prefixes) "  lines......: 85.3%" [None; None; None]
    = Raise ValueError
  /\ (forall output, Str.splitlines output = ["  lines......: 85.3%"] ->
      read_coverage output = Raise ValueError).
Proof.
  apply (malformed_count_raises 0 "  lines......: " "  lines......: 85.3%" [None; None; None]);
    reflexivity.
Defined.

(** ** store_coverage *)

Lemma getitem_inv (d : gmap string string) (k : string) (s s' : sys) (r : result string) :
  getitem d k s = (r, s') ->
  s' = s /\ (r = Raise (KeyError k) /\ d !! k = None \/ exists v, r = Ok v /\ d !! k = Some v).
Proof.
  unfold getitem. destruct (d !! k) as [v|]; intros [= <- <-]; split; eauto.
Qed.

(** When [connect_to_db] returns, the connection is open, its
    transaction is empty and the table is as before. *)
Lemma connect_to_db_ok (W : world) (ctx : args) (s s0 : sys) :
  connect_to_db W ctx s = (Ok tt, s0) ->
  exists host user name passwd,
    trace s0 = trace s ++ [EvConnect host user name passwd; EvAutocommit false]
    /\ committed (db s0) = committed (db s)
    /\ pending (db s0) = []
    /\ connected (db s0) = true.
Proof.
  unfold connect_to_db, mbind, db_call, emit, update_db, raise, getitem, ret.
  repeat (destruct (teuthology_config ctx !! _); [|done]).
  destruct (db_fault W OpConnect); [done|].
  destruct (db_fault W OpAutocommit); [done|].
  intros [= <-]. simpl. eexists _, _, _, _. by rewrite <- app_assoc.
Qed.

Ltac run_db :=
  cbv [store_coverage insert_rows try_finally mbind lift db_call executemany
       emit update_db raise ret];
  cbn [trace db committed pending connected fst snd
       do_rollback do_commit do_close add_pending id].

(** X17. Once [connect_to_db] has returned the connection, [db.close()]
    is the last call of every run of [store_coverage], and the connection
    is closed unless that call itself raises. When [executemany] raises,
    [rollback] is called, [commit] is not, the table holds the rows it
    held before, and an exception reaches the caller: the one that
    [executemany] raised, unless a call made while cleaning up raises
    another. When [executemany] returns, [commit] is called, and the table
    then holds the old rows and all the new ones. *)
Theorem store_coverage_transaction {order : DictOrder} (W : world) (ctx : args)
    (test_coverage : pydict (list metric)) (rev suite : string)
    (s s0 s' : sys) (r : result unit) :
  connect_to_db W ctx s = (Ok tt, s0) ->
  store_coverage W ctx test_coverage rev suite s = (r, s') ->
  (exists evs, trace s' = trace s0 ++ evs ++ [EvClose])
  /\ (db_fault W OpClose = None -> connected (db s') = false)
  /\ (forall rows,
        build_rows rev suite (iteritems test_coverage) = Ok rows ->
        db_fault W OpCursor = None ->
        match db_fault W OpExecutemany with
        | Some e =>
            trace s' = trace s0 ++ [EvCursor; EvExecutemany insert_query rows;
                                     EvRollback; EvCursorClose; EvClose]
            /\ committed (db s') = committed (db s)
            /\ (exists e', r = Raise e')
            /\ (db_fault W OpRollback = None -> db_fault W OpCursorClose = None ->
                db_fault W OpClose = None -> r = Raise e /\ pending (db s') = [])
        | None =>
            trace s' = trace s0 ++ [EvCursor; EvExecutemany insert_query rows;
                                     EvCommit; EvCursorClose; EvClose]
            /\ match db_fault W OpCommit with
               | Some e => committed (db s') = committed (db s) /\ exists e', r = Raise e'
               | None =>
                   committed (db s') = committed (db s) ++ rows
                   /\ (db_fault W OpCursorClose = None -> db_fault W OpClose = None ->
                       r = Ok tt)
               end
        end).
Proof.
  intros Hconn Hrun.
  destruct (connect_to_db_ok W ctx s s0 Hconn) as (h & u & n & pw & _ & Hcom & Hpend & _).
  revert Hrun. run_db. rewrite Hconn. run_db.
  destruct (build_rows rev suite (iteritems test_coverage)) as [rows|e0].
  - destruct (db_fault W OpCursor) as [e1|]; run_db.
    + destruct (db_fault W OpRollback), (db_fault W OpClose); run_db;
        intros [= <- <-]; cbn [trace db connected];
        (split; [eexists [_; _]; by rewrite <- !app_assoc|]); by split.
    + destruct (db_fault W OpExecutemany) as [e|]; run_db.
      * destruct (db_fault W OpRollback), (db_fault W OpCursorClose), (db_fault W OpClose);
          run_db; intros [= <- <-]; cbn [trace db connected committed pending];
          (split; [eexists [_; _; _; _]; by rewrite <- !app_assoc|]);
          (split; [done|]); intros ? [= <-] _;
          rewrite <- !app_assoc; simpl; rewrite ?Hcom; repeat split; eauto; done.
      * destruct (db_fault W OpCommit), (db_fault W OpCursorClose), (db_fault W OpClose);
          run_db; intros [= <- <-]; cbn [trace db connected committed pending];
          (split; [eexists [_; _; _; _]; by rewrite <- !app_assoc|]);
          (split; [done|]); intros ? [= <-] _;
          rewrite <- !app_assoc; simpl; rewrite ?Hpend, ?Hcom; repeat split; eauto; done.
  - destruct (db_fault W OpClose); run_db; intros [= <- <-]; cbn [trace db connected];
      (split; [by exists []|]); by split.
Qed.

Lemma store_coverage_transaction_witness :
  let s := initial [[PyStr "s0"; PyStr "old"]] in
  let s0 := (connect_to_db W_insert_fails args0 s).2 in
  let run := @store_coverage Dict27.order W_insert_fails args0 dataset0 "s1" "suite" s in
  (exists evs, trace run.2 = trace s0 ++ evs ++ [EvClose])
  /\ connected (db run.2) = false
  /\ (exists rows,
        trace run.2 = trace s0 ++ [EvCursor; EvExecutemany insert_query rows;
                                    EvRollback; EvCursorClose; EvClose])
  /\ committed (db run.2) = [[PyStr "s0"; PyStr "old"]]
  /\ run.1 = Raise (DatabaseError "Data too long for column")
  /\ pending (db run.2) = [].
Proof.
  intros s s0 run.
  destruct (@store_coverage_transaction Dict27.order W_insert_fails args0 dataset0
              "s1" "suite" s s0 run.2 run.1) as (Hclose & Hconn & Hins).
  - reflexivity.
  - reflexivity.
  - destruct (Hins _ eq_refl eq_refl) as (Htrace & Hcom & _ & Hexn).
    destruct (Hexn eq_refl eq_refl eq_refl) as [Hr Hp].
    split; [exact Hclose|]. split; [exact (Hconn eq_refl)|].
    split; [eexists; exact Htrace|]. split; [exact Hcom|]. split; [exact Hr | exact Hp].
Defined.

(** C3, at the failing input. The server accepts the connection and then
    fails [db.autocommit(False)]: the exception leaves [store_coverage]
    through [connect_to_db], before the [with closing(...)] block is
    entered. The connection that [MySQLdb.connect] opened is not released:
    the call of [autocommit] is the last call on the driver, [close] is
    never called, and the connection is still open when the exception
    reaches the caller. *)
Theorem connection_not_released_when_autocommit_raises :
  let run := @store_coverage Dict27.order W_autocommit_fails args0 dataset0 "s1" "suite"
               (initial []) in
  run.1 = Raise (DatabaseError "MySQL server has gone away")
  /\ trace run.2 = [EvConnect "h" "u" "n" "p"; EvAutocommit false]
  /\ (EvClose ∉ trace run.2)
  /\ connected (db run.2) = true.
Proof.
  intros run.
  assert (trace run.2 = [EvConnect "h" "u" "n" "p"; EvAutocommit false]) as Ht
    by reflexivity.
  split; [reflexivity|]. split; [exact Ht|]. split; [|reflexivity].
  rewrite Ht. intros Hin.
  repeat (apply elem_of_cons in Hin as [?|Hin]; [done|]). by apply elem_of_nil in Hin.
Qed.

(** ** The order of names *)

Lemma compare_trans (a b c : string) :
  String.compare a b <> Gt -> String.compare b c <> Gt -> String.compare a c <> Gt.
Proof.
  revert b c. induction a as [|x a IH]; intros [|y b] [|z c]; simpl; try done.
  unfold Ascii.compare.
  destruct (N.compare_spec (N_of_ascii x) (N_of_ascii y)) as [Hxy|Hxy|Hxy]; [| |done].
  - rewrite Hxy. destruct (N.compare_spec (N_of_ascii y) (N_of_ascii z)); [apply IH|done..].
  - destruct (N.compare_spec (N_of_ascii y) (N_of_ascii z)) as [Hyz|Hyz|Hyz]; [| |done]; intros _ _.
    + rewrite <- Hyz. by apply N.compare_lt_iff in Hxy as ->.
    + assert (N_of_ascii x < N_of_ascii z)%N as Hxz by lia.
      by apply N.compare_lt_iff in Hxz as ->.
Qed.

#[local] Instance str_le_total : Total str_le.
Proof. intros a b. apply String.leb_total. Qed.

#[local] Instance str_le_trans : Transitive str_le.
Proof.
  intros a b c. unfold str_le, String.leb. intros Hab Hbc.
  pose proof (compare_trans a b c) as H.
  destruct (String.compare a b), (String.compare b c), (String.compare a c);
    try done; by exfalso; apply H.
Qed.



(** ** Dictionaries *)

Lemma dict_get_set {V : Type} (k k' : string) (v : V) (d : pydict V) :
  dict_get k' (dict_set k v d) = if String.eqb k' k then Some v else dict_get k' d.
Proof.
  induction d as [|[k0 v0] d IH]; simpl; [done|].
  destruct (String.eqb_spec k k0) as [->|Hne]; simpl.
  - by destruct (String.eqb k' k0).
  - rewrite IH. destruct (String.eqb_spec k' k0) as [->|]; [|done].
    by destruct (String.eqb_spec k0 k) as [->|].
Qed.

Lemma dict_get_keys {V : Type} (k : string) (d : pydict V) :
  is_Some (dict_get k d) <-> k ∈ dict_keys d.
Proof.
  induction d as [|[k0 v0] d IH]; simpl.
  - split; [by intros [? ?] | by intros ?%elem_of_nil].
  - rewrite elem_of_cons, <- IH. destruct (String.eqb_spec k k0) as [->|Hne].
    + split; eauto.
    + split; [by right | by intros [?|?]].
Qed.

Lemma dict_keys_set {V : Type} (k : string) (v : V) (d : pydict V) :
  dict_keys (dict_set k v d) =
  if decide (k ∈ dict_keys d) then dict_keys d else dict_keys d ++ [k].
Proof.
  unfold dict_keys. induction d as [|[k0 v0] d IH].
  - by rewrite decide_False by apply not_elem_of_nil.
  - cbn [dict_set]. destruct (String.eqb_spec k k0) as [->|Hne]; cbn [map fst].
    + rewrite decide_True; [done | by left].
    + rewrite IH. destruct (decide (k ∈ map fst d)) as [Hin|Hin].
      * rewrite decide_True; [done | by right].
      * rewrite decide_False; [done|]. by intros [?|?]%elem_of_cons.
Qed.

(** ** The scanner *)









(** With no coverage run in the directory the run stops at the
    assertion, and the trace of effects is empty. *)
Example no_coverage_run_aborts :
  @_analyze Dict27.order W_none args0 (initial [])
  = (Raise AssertionError, initial []).
Proof. reflexivity. Qed.

(** ** Runs and their traces *)

Section Emits.
Context (P : event -> Prop).

Lemma emits_ret {A : Type} (x : A) : emits P (ret x).
Proof. intros s r s' [= <- <-]. exists []. by rewrite app_nil_r. Qed.

Lemma emits_raise {A : Type} (e : exn) : emits P (@raise A e).
Proof. intros s r s' [= <- <-]. exists []. by rewrite app_nil_r. Qed.

Lemma emits_lift {A : Type} (x : result A) : emits P (lift x).
Proof. intros s r s' [= <- <-]. exists []. by rewrite app_nil_r. Qed.

Lemma emits_update_db (f : database -> database) : emits P (update_db f).
Proof. intros s r s' [= <- <-]. exists []. by rewrite app_nil_r. Qed.

Lemma emits_emit (ev : event) : P ev -> emits P (emit ev).
Proof. intros H s r s' [= <- <-]. exists [ev]. split; [done | by constructor]. Qed.

Lemma emits_bind {A B : Type} (m : M A) (k : A -> M B) :
  emits P m -> (forall x, emits P (k x)) -> emits P (mbind m k).
Proof.
  intros Hm Hk s r s'. unfold mbind. destruct (m s) as [[x|e] s1] eqn:E.
  - intros Hr. destruct (Hm _ _ _ E) as (evs1 & E1 & H1).
    destruct (Hk x _ _ _ Hr) as (evs2 & E2 & H2).
    exists (evs1 ++ evs2). split; [by rewrite E2, E1, app_assoc | by apply Forall_app].
  - intros [= <- <-]. eauto.
Qed.

Lemma emits_try_finally {A : Type} (body : M A) (fin : M unit) :
  emits P body -> emits P fin -> emits P (try_finally body fin).
Proof.
  intros Hb Hf s r s'. unfold try_finally. destruct (body s) as [rb s1] eqn:E.
  destruct (Hb _ _ _ E) as (evs1 & E1 & H1).
  destruct (fin s1) as [[[]|e] s2] eqn:E2; intros [= <- <-];
    destruct (Hf _ _ _ E2) as (evs2 & E3 & H2);
    exists (evs1 ++ evs2); (split; [by rewrite E3, E1, app_assoc | by apply Forall_app]).
Qed.

Lemma emits_getitem (d : gmap string string) (k : string) : emits P (getitem d k).
Proof. unfold getitem. destruct (d !! k); [apply emits_ret | apply emits_raise]. Qed.

Lemma emits_local {A : Type} (name : string) (v : option A) : emits P (local name v).
Proof. destruct v; [apply emits_ret | apply emits_raise]. Qed.

Lemma emits_db_call (W : world) (op : db_op) (ev : event) (f : database -> database) :
  P ev -> emits P (db_call W op ev f).
Proof.
  intros H. unfold db_call. apply emits_bind; [by apply emits_emit|]. intros _.
  destruct (db_fault W op); [apply emits_raise | apply emits_update_db].
Qed.

End Emits.

Create HintDb emits.
#[local] Hint Resolve emits_ret emits_raise emits_lift emits_update_db emits_emit
  emits_getitem emits_local emits_db_call : emits.

Ltac emits_step :=
  first [ apply emits_bind; [|intros ?]
        | apply emits_try_finally
        | solve [auto with emits] ].

Lemma append_length (a b : string) :
  String.length (a +:+ b) = (String.length a + String.length b)%nat.
Proof. induction a as [|c a IH]; [done|]. cbv [String.append] in *. simpl. by rewrite IH. Qed.

(** A path made by [os.path.join] from a file name ends with it, so it
    is at least as long. *)
Lemma join_length (a b : string) :
  (String.length b <= String.length (join a b))%nat.
Proof.
  unfold join. destruct (Str.startswith b "/"); [done|].
  destruct (_ || _); rewrite !append_length; lia.
Qed.

Lemma genhtml_is_no_init_call (a : args) (suite : string) :
  is_init_call a (EvCheckCall (genhtml_cmd a suite)) = false.
Proof.
  unfold is_init_call, genhtml_cmd. apply String.eqb_neq. intros H.
  pose proof (join_length (cov_tools_dir a) "cov-init.sh") as Hlen.
  rewrite <- H in Hlen. simpl in Hlen. lia.
Qed.

Section NoInitCall.
Context {order : DictOrder} (W : world) (a : args).

Let P : event -> Prop := fun ev => is_init_call a ev = false.

Lemma emits_executemany (q : string) (rows : list row) : emits P (executemany W q rows).
Proof.
  unfold executemany. emits_step; [by apply emits_emit|].
  destruct (db_fault W OpExecutemany); repeat emits_step.
Qed.

Lemma emits_insert_rows (rows : list row) : emits P (insert_rows W rows).
Proof.
  assert (forall op ev f, (forall cmd, ev <> EvCheckCall cmd) -> emits P (db_call W op ev f))
    as Hdb by (intros op ev f Hev; apply emits_db_call; unfold P;
               destruct ev as [cmd| | | | | | | | | | |]; try done; by destruct (Hev cmd)).
  intros s r s'. unfold insert_rows.
  destruct (db_call W OpCursor EvCursor id s) as [[[]|e] s0] eqn:E0;
    destruct (Hdb OpCursor EvCursor id ltac:(done) _ _ _ E0) as (evs0 & T0 & F0).
  - destruct (executemany W insert_query rows s0) as [[[]|e] s1] eqn:E1;
      destruct (emits_executemany _ _ _ _ _ E1) as (evs1 & T1 & F1).
    + destruct (db_call W OpCommit EvCommit do_commit s1) as [r2 s2] eqn:E2.
      destruct (Hdb OpCommit EvCommit do_commit ltac:(done) _ _ _ E2) as (evs2 & T2 & F2).
      intros E3.
      destruct (emits_try_finally P (lift r2) (db_call W OpCursorClose EvCursorClose id)
                  (emits_lift P r2) (Hdb OpCursorClose EvCursorClose id ltac:(done)) _ _ _ E3) as (evs3 & T3 & F3).
      exists (evs0 ++ evs1 ++ evs2 ++ evs3).
      split; [by rewrite T3, T2, T1, T0, <- !app_assoc | by repeat apply Forall_app_2].
    + destruct ((db_call W OpRollback EvRollback do_rollback ;;; raise e)%M s1)
        as [r2 s2] eqn:E2.
      assert (emits P (db_call W OpRollback EvRollback do_rollback ;;; @raise unit e)%M) as H2
        by (emits_step; [by apply Hdb | apply emits_raise]).
      destruct (H2 _ _ _ E2) as (evs2 & T2 & F2).
      intros E3.
      destruct (emits_try_finally P (lift r2) (db_call W OpCursorClose EvCursorClose id)
                  (emits_lift P r2) (Hdb OpCursorClose EvCursorClose id ltac:(done)) _ _ _ E3) as (evs3 & T3 & F3).
      exists (evs0 ++ evs1 ++ evs2 ++ evs3).
      split; [by rewrite T3, T2, T1, T0, <- !app_assoc | by repeat apply Forall_app_2].
  - destruct ((db_call W OpRollback EvRollback do_rollback ;;; raise e)%M s0)
      as [r2 s2] eqn:E2.
    assert (emits P (db_call W OpRollback EvRollback do_rollback ;;; @raise unit e)%M) as H2
      by (emits_step; [by apply Hdb | apply emits_raise]).
    destruct (H2 _ _ _ E2) as (evs2 & T2 & F2).
    intros E3.
    destruct (emits_try_finally P (lift r2) (raise (UnboundLocalError "cursor"))
                (emits_lift P r2) (emits_raise P _) _ _ _ E3) as (evs3 & T3 & F3).
    exists (evs0 ++ evs2 ++ evs3).
    split; [by rewrite T3, T2, T0, <- !app_assoc | by repeat apply Forall_app_2].
Qed.

Lemma emits_store_coverage (tc : pydict (list metric)) (rev suite : string) :
  emits P (store_coverage W a tc rev suite).
Proof.
  unfold store_coverage, connect_to_db.
  repeat (emits_step; try (apply emits_db_call; reflexivity)).
  - apply emits_insert_rows.
Qed.

Lemma emits_popen (cmd : list string) : emits P (popen_communicate W cmd).
Proof. unfold popen_communicate. repeat emits_step. by apply emits_emit. Qed.

Lemma emits_analyze_tests (items : list (string * summary_doc)) (vars : loop_vars) :
  emits P (analyze_tests W a items vars).
Proof.
  revert vars. induction items as [|[t summ] items IH]; intros vars; simpl.
  - apply emits_ret.
  - emits_step; [|apply IH]. unfold analyze_test.
    repeat (emits_step; try apply emits_popen). by apply emits_emit.
Qed.

End NoInitCall.

(** ** The initializer *)

Lemma mbind_assoc {A B C : Type} (m : M A) (k1 : A -> M B) (k2 : B -> M C) (s : sys) :
  mbind (mbind m k1) k2 s = mbind m (fun x => mbind (k1 x) k2) s.
Proof. unfold mbind. by destruct (m s) as [[x|e] s1]. Qed.

Lemma mbind_ret {A B : Type} (x : A) (k : A -> M B) (s : sys) :
  mbind (ret x) k s = k x s.
Proof. reflexivity. Qed.

Lemma mbind_lift_ok {A B : Type} (x : A) (k : A -> M B) (s : sys) :
  mbind (lift (Ok x)) k s = k x s.
Proof. reflexivity. Qed.

Lemma mbind_raise {A B : Type} (e : exn) (k : A -> M B) (s : sys) :
  mbind (raise e) k s = (Raise e, s).
Proof. reflexivity. Qed.

Lemma mbind_emit {B : Type} (ev : event) (k : unit -> M B) (s : sys) :
  mbind (emit ev) k s = k tt {| trace := trace s ++ [ev]; db := db s |}.
Proof. reflexivity. Qed.

Lemma load_summaries_nil (W : world) (a : args) (ts : pydict summary_doc) :
  load_summaries W a [] [] = Ok ts -> ts = [].
Proof. by intros [= <-]. Qed.

(** C5, as the code has it. When initialization is not skipped (and the
    scanner found a coverage run, and the configuration names the build
    directory), the first effect of the run is the call of [cov-init.sh]
    with the directory of the first candidate in name order, whatever its
    flavor; no later effect is a call of the initializer; when the call
    exits with 0 the next effect is the copy of [base.lcov] to
    [total.lcov], and otherwise the run ends there with
    [CalledProcessError]. *)
Theorem initializer_runs_once {order : DictOrder} (W : world) (a : args)
    (test_summaries : pydict summary_doc) (build_dir : string)
    (s s' : sys) (r : result unit) :
  skip_init a = false ->
  load_summaries W a (candidates W a) [] = Ok test_summaries ->
  test_summaries <> [] ->
  teuthology_config a !! "ceph_build_output_dir" = Some build_dir ->
  _analyze W a s = (r, s') ->
  exists test0 others tail,
    candidates W a = test0 :: others
    /\ let cmd := init_cmd a test0 build_dir (basename (test_dir a)) in
       trace s' = trace s ++ EvCheckCall cmd :: tail
       /\ is_init_call a (EvCheckCall cmd) = true
       /\ Forall (fun ev => is_init_call a ev = false) tail
       /\ (if exit_status W cmd =? 0
           then exists tail',
                  tail = EvCopy (join (lcov_output a) "base.lcov")
                                (join (lcov_output a) "total.lcov") :: tail'
           else tail = [] /\ r = Raise (CalledProcessError (exit_status W cmd) cmd)).
Proof.
  intros Hskip Hload Hne Hcfg.
  destruct (candidates W a) as [|test0 others] eqn:Hc;
    [by apply load_summaries_nil in Hload|].
  unfold _analyze. rewrite Hc, Hload, mbind_lift_ok.
  destruct test_summaries as [|kv ts]; [done|].
  change (0 <? length (kv :: ts))%nat with true. cbv iota. rewrite mbind_ret.
  rewrite Hskip. cbn [negb]. unfold cov_init.
  rewrite !mbind_assoc, mbind_ret. unfold getitem. rewrite Hcfg.
  rewrite !mbind_assoc, mbind_ret. unfold check_call.
  rewrite !mbind_assoc, mbind_emit.
  intros Hrun. exists test0, others.
  set (cmd := init_cmd a test0 build_dir (basename (test_dir a))) in *.
  assert (is_init_call a (EvCheckCall cmd) = true) as Hinit by apply String.eqb_refl.
  destruct (exit_status W cmd =? 0) eqn:Hst.
  - rewrite mbind_ret, mbind_emit in Hrun.
    match type of Hrun with
    | ?m _ = _ => assert (emits (fun ev => is_init_call a ev = false) m) as Hem
    end.
    { repeat first
        [ apply emits_analyze_tests
        | apply emits_store_coverage
        | apply emits_bind; [|intros ?]
        | apply emits_lift | apply emits_local | apply emits_getitem
        | apply emits_ret | apply emits_raise
        | match goal with |- emits _ (if ?b then _ else _) => destruct b end
        | match goal with |- emits _ (match ?x with _ => _ end) => destruct x end
        | progress unfold check_call
        | apply emits_emit; apply genhtml_is_no_init_call ]. }
    destruct (Hem _ _ _ Hrun) as (evs & Ht & Hf). cbn [trace] in Ht.
    eexists. split; [done|]. split; [|split; [done|split]].
    + rewrite Ht, <- !app_assoc. reflexivity.
    + by constructor.
    + eauto.
  - rewrite mbind_raise in Hrun. injection Hrun as <- <-.
    exists []. by repeat split.
Qed.

Lemma initializer_runs_once_witness :
  let run := @_analyze Dict27.order W_mixed args0 (initial []) in
  exists test0 others tail,
    candidates W_mixed args0 = test0 :: others
    /\ let cmd := init_cmd args0 test0 "/build" (basename (test_dir args0)) in
       trace run.2 = trace (initial []) ++ EvCheckCall cmd :: tail
       /\ is_init_call args0 (EvCheckCall cmd) = true
       /\ Forall (fun ev => is_init_call args0 ev = false) tail
       /\ (if exit_status W_mixed cmd =? 0
           then exists tail',
                  tail = EvCopy (join (lcov_output args0) "base.lcov")
                                (join (lcov_output args0) "total.lcov") :: tail'
           else tail = [] /\
                run.1 = Raise (CalledProcessError (exit_status W_mixed cmd) cmd)).
Proof.
  intros run.
  eapply (@initializer_runs_once Dict27.order W_mixed args0 _ "/build" (initial []) run.2 run.1).
  - reflexivity.
  - vm_compute. reflexivity.
  - done.
  - reflexivity.
  - vm_compute. reflexivity.
Defined.

(** The claim of C5 fails where the first directory in name order is
    no coverage run: the only eligible test is [b], and the initializer
    is called with the directory of [a]. *)
Lemma initializer_template_is_first_candidate :
  match load_summaries W_mixed args0 (candidates W_mixed args0) [] with
  | Ok test_summaries => dict_keys test_summaries
  | Raise _ => []
  end = ["b"]
  /\ head (trace (@_analyze Dict27.order W_mixed args0 (initial [])).2)
     = Some (EvCheckCall ["../../coverage/cov-init.sh"; "/r/suite/a"; "/out";
                          "/build/suite.tgz"]).
Proof. split; vm_compute; reflexivity. Qed.

(** ** Runs that end well *)

Lemma mbind_ok {A B : Type} (m : M A) (k : A -> M B) (s s' : sys) (b : B) :
  mbind m k s = (Ok b, s') -> exists x s1, m s = (Ok x, s1) /\ k x s1 = (Ok b, s').
Proof. unfold mbind. destruct (m s) as [[x|e] s1]; [eauto | done]. Qed.

Lemma ret_ok {A : Type} (x y : A) (s s' : sys) :
  ret x s = (Ok y, s') -> y = x /\ s' = s.
Proof. by intros [= -> ->]. Qed.

Lemma lift_ok {A : Type} (r : result A) (s s' : sys) (x : A) :
  lift r s = (Ok x, s') -> r = Ok x /\ s' = s.
Proof. by intros [= -> ->]. Qed.

Lemma local_ok {A : Type} (name : string) (v : option A) (s s' : sys) (x : A) :
  local name v s = (Ok x, s') -> v = Some x /\ s' = s.
Proof. destruct v; by intros [= -> ->]. Qed.

Lemma getitem_ok (d : gmap string string) (k : string) (s s' : sys) (v : string) :
  getitem d k s = (Ok v, s') -> d !! k = Some v /\ s' = s.
Proof. unfold getitem. destruct (d !! k); by intros [= -> ->]. Qed.

Lemma emit_ok (ev : event) (s s' : sys) (x : unit) :
  emit ev s = (Ok x, s') -> trace s' = trace s ++ [ev] /\ db s' = db s.
Proof. by intros [= _ <-]. Qed.

Lemma popen_ok (W : world) (cmd : list string) (s s' : sys) (out : string) :
  popen_communicate W cmd s = (Ok out, s') ->
  out = stdout_of W cmd /\ trace s' = trace s ++ [EvPopen cmd] /\ db s' = db s.
Proof. by intros [= <- <-]. Qed.

Lemma check_call_ok (W : world) (cmd : list string) (s s' : sys) (x : unit) :
  check_call W cmd s = (Ok x, s') ->
  exit_status W cmd = 0 /\ trace s' = trace s ++ [EvCheckCall cmd] /\ db s' = db s.
Proof.
  unfold check_call. rewrite mbind_emit.
  destruct (Z.eqb_spec (exit_status W cmd) 0); [|done]. by intros [= _ <-].
Qed.

Tactic Notation "ok_step" hyp(H) "as" ident(x) ident(s1) ident(H1) :=
  apply mbind_ok in H as (x & s1 & H1 & H).

(** The loop over the tests, when it ends well. *)
Lemma analyze_tests_ok (W : world) (a : args) (items : list (string * summary_doc))
    (vars vars' : loop_vars) (s s' : sys) :
  analyze_tests W a items vars s = (Ok vars', s') ->
  store_coverages W a items (test_coverage vars) = Ok (test_coverage vars')
  /\ trace s' = trace s ++ (items.*1 ≫= test_events a)
  /\ db s' = db s
  /\ output vars' = match last items with
                    | Some (t, _) => Some (stdout_of W (merge_cmd a t))
                    | None => output vars
                    end
  /\ summary vars' = match last items with
                     | Some (_, summ) => Some summ
                     | None => summary vars
                     end.
Proof.
  revert vars s. induction items as [|[t summ] items IH]; intros vars s H.
  - injection H as <- <-. simpl. by rewrite app_nil_r.
  - simpl in H. ok_step H as vars1 s1 H0. unfold analyze_test in H0.
    ok_step H0 as out s2 H1. apply popen_ok in H1 as (-> & T1 & D1).
    ok_step H0 as cov s3 H2. apply lift_ok in H2 as (Hcov & ->).
    ok_step H0 as out' s4 H3. apply popen_ok in H3 as (-> & T3 & D3).
    ok_step H0 as u s5 H4. apply emit_ok in H4 as (T4 & D4).
    injection H0 as <- <-.
    apply IH in H as (Hst & T & D & Hout & Hsum). cbn [test_coverage output summary] in *.
    split; [|split; [|split; [|split]]].
    + cbn [store_coverages]. rewrite Hcov. exact Hst.
    + rewrite T, T4, T3, T1. cbn. by rewrite <- !app_assoc.
    + congruence.
    + rewrite Hout. destruct items as [|[t' summ'] items]; [done|]. rewrite last_cons_cons.
      destruct (last ((t', summ') :: items)) as [[? ?]|] eqn:El; [done|].
      by apply last_None in El.
    + rewrite Hsum. destruct items as [|[t' summ'] items]; [done|]. rewrite last_cons_cons.
      destruct (last ((t', summ') :: items)) as [[? ?]|] eqn:El; [done|].
      by apply last_None in El.
Qed.

(** [store_coverage], when it ends well: every call of the driver
    returned, and the rows are in the table. *)
Lemma store_coverage_ok {order : DictOrder} (W : world) (ctx : args)
    (tc : pydict (list metric)) (rev suite : string) (s s' : sys) :
  store_coverage W ctx tc rev suite s = (Ok tt, s') ->
  exists rows host user name passwd,
    build_rows rev suite (iteritems tc) = Ok rows
    /\ trace s' = trace s ++ [EvConnect host user name passwd; EvAutocommit false;
                              EvCursor; EvExecutemany insert_query rows;
                              EvCommit; EvCursorClose; EvClose]
    /\ committed (db s') = committed (db s) ++ rows.
Proof.
  unfold store_coverage. intros H. ok_step H as x s0 H0.
  destruct x. destruct (connect_to_db_ok W ctx s s0 H0) as (h & u & n & p & T0 & C0 & P0 & _).
  revert H. run_db.
  destruct (build_rows rev suite (iteritems tc)) as [rows|e0].
  - exists rows, h, u, n, p. split; [done|]. revert H.
    destruct (db_fault W OpCursor); run_db;
      [destruct (db_fault W OpRollback), (db_fault W OpClose); run_db; done|].
    destruct (db_fault W OpExecutemany); run_db;
      [destruct (db_fault W OpRollback), (db_fault W OpCursorClose), (db_fault W OpClose);
       run_db; done|].
    destruct (db_fault W OpCommit), (db_fault W OpCursorClose), (db_fault W OpClose);
      run_db; try done.
    intros [= <-]. simpl. rewrite T0, C0, P0, <- !app_assoc. done.
  - destruct (db_fault W OpClose); run_db; done.
Qed.

(** A run of [_analyze] that ends well, step by step. *)
Lemma _analyze_ok {order : DictOrder} (W : world) (a : args) (s s' : sys) :
  _analyze W a s = (Ok tt, s') ->
  let suite := basename (test_dir a) in
  exists ts t summ d total rev rows test0 build_dir host user name passwd,
    load_summaries W a (candidates W a) [] = Ok ts
    /\ last (iteritems ts) = Some (t, summ)
    /\ store_coverages W a (iteritems ts) [] = Ok d
    /\ read_coverage (stdout_of W (merge_cmd a t)) = Ok total
    /\ summ !! "ceph-sha1" = Some rev
    /\ build_rows rev suite (iteritems (dict_set (total_label suite) total d)) = Ok rows
    /\ trace s' =
         trace s
         ++ (if skip_init a then []
             else [EvCheckCall (init_cmd a test0 build_dir suite);
                   EvCopy (join (lcov_output a) "base.lcov")
                          (join (lcov_output a) "total.lcov")])
         ++ ((iteritems ts).*1 ≫= test_events a)
         ++ (if truthy (html_output a) then [EvCheckCall (genhtml_cmd a suite)] else [])
         ++ [EvConnect host user name passwd; EvAutocommit false; EvCursor;
             EvExecutemany insert_query rows; EvCommit; EvCursorClose; EvClose]
    /\ committed (db s') = committed (db s) ++ rows.
Proof.
  intros H suite. unfold _analyze in H. fold suite in H.
  ok_step H as ts s1 H1. apply lift_ok in H1 as (Hload & ->).
  ok_step H as u1 s2 H2.
  assert (s2 = s) as -> by (destruct (0 <? length ts)%nat; by injection H2).
  ok_step H as u2 s3 Hinit.
  assert (exists test0 build_dir,
             trace s3 = trace s ++
               (if skip_init a then []
                else [EvCheckCall (init_cmd a test0 build_dir suite);
                      EvCopy (join (lcov_output a) "base.lcov")
                             (join (lcov_output a) "total.lcov")])
             /\ db s3 = db s) as (test0 & build_dir & T3 & D3).
  { destruct (skip_init a); simpl in Hinit.
    - apply ret_ok in Hinit as (_ & ->). exists "", "". by rewrite app_nil_r.
    - unfold cov_init in Hinit.
      ok_step Hinit as test0 s4 H4.
      assert (s4 = s) as -> by (destruct (candidates W a); by injection H4).
      ok_step Hinit as build_dir s5 H5. apply getitem_ok in H5 as (_ & ->).
      ok_step Hinit as u3 s6 H6. apply check_call_ok in H6 as (_ & T6 & D6).
      apply emit_ok in Hinit as (T7 & D7).
      exists test0, build_dir. split; [|congruence].
      by rewrite T7, T6, <- app_assoc. }
  ok_step H as vars s4 Hloop.
  apply analyze_tests_ok in Hloop as (Hst & T4 & D4 & Hout & Hsum).
  cbn [test_coverage output summary] in *.
  ok_step H as out s5 H5. apply local_ok in H5 as (Hout' & ->).
  ok_step H as total s6 H6. apply lift_ok in H6 as (Htotal & ->).
  ok_step H as u4 s7 Hhtml.
  assert (trace s7 = trace s4 ++
            (if truthy (html_output a) then [EvCheckCall (genhtml_cmd a suite)] else [])
          /\ db s7 = db s4) as (T7 & D7).
  { destruct (truthy (html_output a)).
    - by apply check_call_ok in Hhtml as (_ & ? & ?).
    - apply ret_ok in Hhtml as (_ & ->). by rewrite app_nil_r. }
  ok_step H as summ s8 H8. apply local_ok in H8 as (Hsumm & ->).
  ok_step H as rev s9 H9. apply getitem_ok in H9 as (Hrev & ->).
  apply store_coverage_ok in H as (rows & h & u & n & p & Hrows & T & C).
  rewrite Hout in Hout'. rewrite Hsum in Hsumm.
  destruct (last (iteritems ts)) as [[t summ0]|] eqn:Hlast; [|done].
  injection Hout' as <-. injection Hsumm as ->.
  exists ts, t, summ, (test_coverage vars), total, rev, rows, test0, build_dir, h, u, n, p.
  repeat split; try done.
  - rewrite T, T7, T4, T3, <- !app_assoc. reflexivity.
  - rewrite C. congruence.
Qed.

(** ** The dataset and its rows *)

Lemma store_coverages_keys (W : world) (a : args) (items : list (string * summary_doc))
    (d d' : pydict (list metric)) :
  store_coverages W a items d = Ok d' ->
  forall k, k ∈ dict_keys d' <->
            k ∈ dict_keys d \/
            exists t summ, (t, summ) ∈ items /\ k = description t summ.
Proof.
  revert d. induction items as [|[t summ] items IH]; intros d H k.
  - injection H as <-. split; [by left|]. intros [?|(? & ? & Hin & _)]; [done|].
    by apply elem_of_nil in Hin.
  - cbn [store_coverages] in H.
    destruct (read_coverage _) as [cov|]; [simpl in H|done].
    rewrite (IH _ H k), dict_keys_set. split.
    + intros [Hk|(t' & summ' & Hin & ->)].
      * case_decide; [by left|]. apply elem_of_app in Hk as [?|Hk]; [by left|].
        apply list_elem_of_singleton in Hk as ->.
        right. exists t, summ. split; [by left | done].
      * right. exists t', summ'. split; [by right | done].
    + intros [Hk|(t' & summ' & Hin & ->)].
      * left. case_decide; [done|]. apply elem_of_app. by left.
      * apply elem_of_cons in Hin as [[= -> ->]|Hin].
        -- left. case_decide; [done|]. apply elem_of_app. right. by apply list_elem_of_singleton.
        -- right. eauto.
Qed.

(** The rows follow the entries, one for one: a row starts with the
    revision, the label of its entry and the suite. *)
Lemma build_rows_labels (rev suite : string) (entries : list (string * list metric))
    (rows : list row) :
  build_rows rev suite entries = Ok rows ->
  take 3 <$> rows = (fun kv => [PyStr rev; PyStr kv.1; PyStr suite]) <$> entries.
Proof.
  revert rows. induction entries as [|[test cov] entries IH]; intros rows H.
  - by injection H as <-.
  - cbn [build_rows] in H. destruct (flatten cov) as [cols|]; [simpl in H|done].
    destruct (build_rows rev suite entries) as [rows'|]; [simpl in H|done].
    injection H as <-. rewrite !fmap_cons, (IH rows' eq_refl). reflexivity.
Qed.

Lemma iteritems_get `{DictOrder} {V : Type} (d : pydict V) (k : string) (v : V) :
  (k, v) ∈ iteritems d -> dict_get k d = Some v.
Proof.
  unfold iteritems. rewrite list_elem_of_omap. intros (k' & _ & Hk).
  destruct (dict_get k' d) as [v'|] eqn:E; simpl in Hk; [|done].
  by injection Hk as -> ->.
Qed.

(** When the order of iteration lists the keys of the dict and nothing
    else, the loop visits these keys. *)
Lemma iteritems_keys `{DictOrder} {V : Type} (d : pydict V) :
  (forall k, k ∈ slot_order (dict_keys d) -> k ∈ dict_keys d) ->
  (iteritems d).*1 = slot_order (dict_keys d).
Proof.
  unfold iteritems. generalize (slot_order (dict_keys d)) as ks.
  induction ks as [|k ks IH]; intros Hks; [done|]. simpl.
  destruct (dict_get_keys k d) as [_ Hk]. destruct Hk as [v Hv]; [apply Hks; by left|].
  rewrite Hv. simpl. f_equal. apply IH. intros k' Hk'. apply Hks. by right.
Qed.

(** What [test_summaries] holds for a test is its merged summary, which
    has the flavor gcov. *)
Lemma load_summaries_get (W : world) (a : args) (tests : list string)
    (d ts : pydict summary_doc) :
  load_summaries W a tests d = Ok ts ->
  (forall t summ, dict_get t d = Some summ ->
                  summ = load_summary W a t /\ coverage_enabled W a t) ->
  forall t summ, dict_get t ts = Some summ ->
                 summ = load_summary W a t /\ coverage_enabled W a t.
Proof.
  revert d. induction tests as [|t0 tests IH]; intros d H Hd; simpl in H.
  - by injection H as <-.
  - destruct (load_summary W a t0 !! "flavor") as [fl|] eqn:Hfl; [|done].
    destruct (String.eqb_spec fl "gcov") as [->|_]; [|by eapply IH].
    eapply IH; [exact H|]. intros t summ. rewrite dict_get_set.
    destruct (String.eqb_spec t t0) as [->|_]; [|apply Hd]. by intros [= <-].
Qed.

(** C6, as the code has it. In a run that ends well the dataset is a
    Python 2 dict keyed by description. The loop visits the eligible tests
    in the order in which the dict [test_summaries] iterates (these are
    the only tools started with [Popen]), and stores one parsed report per
    visit under the description of the test; the entry of the total is
    stored after all of them; the keys of the dataset are the label of the
    total and the descriptions. [store_coverage] builds one row per entry
    in the order in which the dataset dict iterates, and these rows are
    what the table gains. *)
Theorem dataset_in_dict_order {order : DictOrder} (W : world) (a : args) (s s' : sys) :
  _analyze W a s = (Ok tt, s') ->
  let suite := basename (test_dir a) in
  exists ts d total rev rows before after,
    load_summaries W a (candidates W a) [] = Ok ts
    /\ trace s' = trace s ++ before ++ ((iteritems ts).*1 ≫= test_events a) ++ after
    /\ Forall (fun ev => forall cmd, ev <> EvPopen cmd) (before ++ after)
    /\ store_coverages W a (iteritems ts) [] = Ok d
    /\ dict_get (total_label suite) (dict_set (total_label suite) total d) = Some total
    /\ (forall k, k ∈ dict_keys (dict_set (total_label suite) total d) <->
                  k = total_label suite \/
                  exists t summ, (t, summ) ∈ iteritems ts /\ k = description t summ)
    /\ EvExecutemany insert_query rows ∈ after
    /\ take 3 <$> rows
       = (fun kv => [PyStr rev; PyStr kv.1; PyStr suite])
           <$> iteritems (dict_set (total_label suite) total d)
    /\ committed (db s') = committed (db s) ++ rows.
Proof.
  intros H suite.
  destruct (_analyze_ok W a s s' H)
    as (ts & t & summ & d & total & rev & rows & test0 & build_dir & h & u & n & p &
        Hload & Hlast & Hst & Htotal & Hrev & Hrows & T & C).
  fold suite in Hrows, T.
  exists ts, d, total, rev, rows. eexists _, _.
  split; [done|]. split; [exact T|]. split; [|split; [done|split; [|split; [|split; [|split]]]]].
  - apply Forall_app. split; [by destruct (skip_init a); repeat constructor|].
    apply Forall_app. split; [by destruct (truthy (html_output a)); repeat constructor|].
    by repeat constructor.
  - by rewrite dict_get_set, String.eqb_refl.
  - intros k. rewrite dict_keys_set. pose proof (store_coverages_keys W a _ _ _ Hst k) as Hk.
    case_decide as Hin.
    + rewrite Hk. split.
      * intros [[]%elem_of_nil|?]. by right.
      * intros [->|?]; [by apply Hk | by right].
    + rewrite elem_of_app, list_elem_of_singleton, Hk. split.
      * intros [[[]%elem_of_nil|?]|?]; [by right | by left].
      * intros [?|?]; [by right | left; by right].
  - apply elem_of_app. right. set_solver.
  - by apply build_rows_labels.
  - done.
Qed.

Lemma dataset_in_dict_order_witness :
  let run := @_analyze Dict27.order W_described args0 (initial []) in
  let suite := basename (test_dir args0) in
  exists ts d total rev rows before after,
    load_summaries W_described args0 (candidates W_described args0) [] = Ok ts
    /\ trace run.2 = trace (initial []) ++ before
                     ++ ((@iteritems Dict27.order _ ts).*1 ≫= test_events args0) ++ after
    /\ Forall (fun ev => forall cmd, ev <> EvPopen cmd) (before ++ after)
    /\ store_coverages W_described args0 (@iteritems Dict27.order _ ts) [] = Ok d
    /\ dict_get (total_label suite) (dict_set (total_label suite) total d) = Some total
    /\ (forall k, k ∈ dict_keys (dict_set (total_label suite) total d) <->
                  k = total_label suite \/
                  exists t summ, (t, summ) ∈ @iteritems Dict27.order _ ts /\
                                 k = description t summ)
    /\ EvExecutemany insert_query rows ∈ after
    /\ take 3 <$> rows
       = (fun kv => [PyStr rev; PyStr kv.1; PyStr suite])
           <$> @iteritems Dict27.order _ (dict_set (total_label suite) total d)
    /\ committed (db run.2) = committed (db (initial [])) ++ rows.
Proof.
  intros run.
  apply (@dataset_in_dict_order Dict27.order W_described args0 (initial []) run.2).
  vm_compute. reflexivity.
Defined.

(** The claim of C6 fails on both counts. With the runs [a], [b], [c]
    the scanner stores the tests in name order and the loop visits them
    in the order a, c, b. With two runs described as test-a and test-b the
    total is stored last and its row is the first one inserted. *)
Lemma total_row_is_read_first :
  match load_summaries W0 args0 (candidates W0 args0) [] with
  | Ok test_summaries => dict_keys test_summaries
  | Raise _ => []
  end = ["a"; "b"; "c"]
  /\ analyzed_tests (trace (@_analyze Dict27.order W0 args0 (initial [])).2)
     = ["a"; "c"; "b"]
  /\ (fun r : row => r !! 1%nat)
       <$> committed (db (@_analyze Dict27.order W_described args0 (initial [])).2)
     = [Some (PyStr "total for suite"); Some (PyStr "test-a"); Some (PyStr "test-b")].
Proof. repeat split; vm_compute; reflexivity. Qed.

(** ** The revision *)

Lemma build_rows_rev (rev suite : string) (entries : list (string * list metric))
    (rows : list row) :
  build_rows rev suite entries = Ok rows ->
  Forall (fun r : row => head r = Some (PyStr rev)) rows.
Proof.
  revert rows. induction entries as [|[test cov] entries IH]; intros rows H.
  - injection H as <-. constructor.
  - cbn [build_rows] in H. destruct (flatten cov) as [cols|]; [simpl in H|done].
    destruct (build_rows rev suite entries) as [rows'|]; [simpl in H|done].
    injection H as <-. constructor; [done | by apply IH].
Qed.

(** C7, as the code has it. In a run that ends well every row that the
    table gains starts with one and the same revision: the value under
    the key [ceph-sha1] in the merged [summary.yaml] of the test that the
    loop visited last. The file [ceph-sha1] is only tested for existence:
    the run is the same whatever the files contain. *)
Theorem revision_from_last_summary {order : DictOrder} (W : world) (a : args) (s s' : sys) :
  _analyze W a s = (Ok tt, s') ->
  exists ts t rev rows,
    load_summaries W a (candidates W a) [] = Ok ts
    /\ last (iteritems ts) = Some (t, load_summary W a t)
    /\ load_summary W a t !! "ceph-sha1" = Some rev
    /\ committed (db s') = committed (db s) ++ rows
    /\ Forall (fun r : row => head r = Some (PyStr rev)) rows
    /\ (forall content, _analyze (with_file_content W content) a s = (Ok tt, s')).
Proof.
  intros H.
  destruct (_analyze_ok W a s s' H)
    as (ts & t & summ & d & total & rev & rows & test0 & build_dir & h & u & n & p &
        Hload & Hlast & Hst & Htotal & Hrev & Hrows & T & C).
  assert (summ = load_summary W a t) as ->.
  { apply last_Some_elem_of, iteritems_get in Hlast.
    by destruct (load_summaries_get W a _ [] ts Hload ltac:(done) t summ Hlast). }
  exists ts, t, rev, rows. repeat split; try done.
  by eapply build_rows_rev.
Qed.

Lemma revision_from_last_summary_witness :
  let run := @_analyze Dict27.order W_described args0 (initial []) in
  exists ts t rev rows,
    load_summaries W_described args0 (candidates W_described args0) [] = Ok ts
    /\ last (@iteritems Dict27.order _ ts) = Some (t, load_summary W_described args0 t)
    /\ load_summary W_described args0 t !! "ceph-sha1" = Some rev
    /\ committed (db run.2) = committed (db (initial [])) ++ rows
    /\ Forall (fun r : row => head r = Some (PyStr rev)) rows
    /\ (forall content,
          @_analyze Dict27.order (with_file_content W_described content) args0 (initial [])
          = (Ok tt, run.2)).
Proof.
  intros run.
  apply (@revision_from_last_summary Dict27.order W_described args0 (initial []) run.2).
  vm_compute. reflexivity.
Defined.

(** The claim of C7 fails where the files and the summaries disagree:
    the [ceph-sha1] files of the two tests hold 1111 and 3333, and every
    row carries 4444, the value of the key in the summary of [b]. *)
Lemma revision_is_not_read_from_file :
  file_content W_described "/r/suite/a/ceph-sha1" = Some "1111"
  /\ file_content W_described "/r/suite/b/ceph-sha1" = Some "3333"
  /\ (fun r : row => head r)
       <$> committed (db (@_analyze Dict27.order W_described args0 (initial [])).2)
     = [Some (PyStr "4444"); Some (PyStr "4444"); Some (PyStr "4444")].
Proof. repeat split; vm_compute; reflexivity. Qed.

(** * Further properties *)

(** ** read_coverage on other texts *)

Lemma first_match_None (line : string) :
  (forall p, p ∈ prefixes -> Str.startswith line p = false) -> first_match line = None.
Proof.
  intros H. pose proof (first_match_spec line) as Hs.
  destruct (first_match line) as [[i p]|]; [|done]. destruct Hs as [Hi Hp].
  rewrite H in Hp; [done|]. by eapply list_elem_of_lookup_2.
Qed.

(** X1. A text none of whose lines starts with a metric prefix, the
    empty text among them, parses without an error to three unassigned
    metrics. *)
Theorem read_coverage_no_metric_line (output : string) :
  (forall l p, l ∈ Str.splitlines output -> p ∈ prefixes -> Str.startswith l p = false) ->
  read_coverage output = Ok [None; None; None].
Proof.
  intros H. unfold read_coverage.
  assert (forall l, l ∈ reverse (Str.splitlines output) -> first_match l = None) as Hl.
  { intros l Hin. apply first_match_None. intros p. apply H. by apply elem_of_reverse. }
  revert Hl. generalize (reverse (Str.splitlines output)) as lines.
  induction lines as [|l lines IH]; intros Hl; [done|].
  rewrite scan_lines_cons, match_prefixes_first, Hl by (by left). simpl.
  apply IH. intros l' Hin. apply Hl. by right.
Qed.

Lemma read_coverage_no_metric_line_witness :
  read_coverage ("Reading tracefile /out/a.lcov" +:+ nl +:+ "lcov: no valid records found")
  = Ok [None; None; None].
Proof.
  apply read_coverage_no_metric_line. intros l p Hl Hp.
  change (l ∈ ["Reading tracefile /out/a.lcov"; "lcov: no valid records found"]) in Hl.
  change (p ∈ ["  lines......: "; "  functions..: "; "  branches...: "]) in Hp.
  repeat (apply elem_of_cons in Hl as [->|Hl];
          [repeat (apply elem_of_cons in Hp as [->|Hp]; [reflexivity|]);
           by apply elem_of_nil in Hp|]).
  by apply elem_of_nil in Hl.
Defined.

Lemma py_int_raises (s : string) (e : exn) : py_int s = Raise e -> e = ValueError.
Proof.
  unfold py_int. destruct (split_sign _) as [neg body].
  destruct (Str.digits_value body); [done | by intros [= <-]].
Qed.

Lemma py_float_raises (s : string) (e : exn) : py_float s = Raise e -> e = ValueError.
Proof.
  unfold py_float. destruct (split_sign _) as [neg body].
  destruct (_ || _); [done|]. destruct (String.eqb _ "nan"); [done|].
  destruct (Str.take_digits body) as [ip r1].
  destruct (match r1 with String "." r => _ | _ => _ end) as [fp r2].
  destruct (Str.digits_value _); [|by intros [= <-]].
  destruct (parse_exponent _); [done | by intros [= <-]].
Qed.

(** X2. The only exception that [read_coverage] raises is
    [ValueError]. *)
Theorem read_coverage_raises_ValueError (output : string) (e : exn) :
  read_coverage output = Raise e -> e = ValueError.
Proof.
  unfold read_coverage. generalize (reverse (Str.splitlines output)) as lines.
  generalize [@None (option Z * option float); None; None] as c.
  intros c lines. revert c. induction lines as [|l lines IH]; intros c; [done|].
  rewrite scan_lines_cons, match_prefixes_first.
  destruct (first_match l) as [[i p]|]; simpl.
  - unfold line_metric. destruct (Str.contains "%" l); simpl.
    + destruct (py_int _) as [n|e1] eqn:E1; simpl; [|intros [= <-]; by eapply py_int_raises].
      destruct (py_float _) as [x|e2] eqn:E2; simpl;
        [|intros [= <-]; by eapply py_float_raises].
      destruct (none_not_in _); [done | apply IH].
    + destruct (none_not_in _); [done | apply IH].
  - destruct (none_not_in c); [done | apply IH].
Qed.

Lemma read_coverage_raises_ValueError_witness :
  exists e, read_coverage "  functions..: n/a% (3 of 4)" = Raise e /\ e = ValueError.
Proof.
  eexists. split; [reflexivity|].
  exact (read_coverage_raises_ValueError "  functions..: n/a% (3 of 4)" ValueError eq_refl).
Defined.

Lemma scan_lines_filter (lines : list string) (c : list metric) :
  none_not_in c = false ->
  scan_lines (filter metric_line lines) c = scan_lines lines c.
Proof.
  revert c. induction lines as [|l lines IH]; intros c Hc; [done|].
  rewrite filter_cons, (scan_lines_cons l lines). destruct (decide (metric_line l)) as [Hl|Hl].
  - rewrite scan_lines_cons. destruct (match_prefixes _ l c) as [c1|]; [simpl|done].
    destruct (none_not_in c1) eqn:Hc1; [done | by apply IH].
  - rewrite match_prefixes_first.
    assert (first_match l = None) as -> by (by apply eq_None_not_Some).
    simpl. rewrite Hc. by apply IH.
Qed.

(** X3. Only the lines that start with a metric prefix count: two
    texts with the same such lines, in the same order, parse alike,
    exception or not. *)
Theorem read_coverage_metric_lines_only (output output' : string) :
  filter metric_line (Str.splitlines output) = filter metric_line (Str.splitlines output') ->
  read_coverage output = read_coverage output'.
Proof.
  intros H. unfold read_coverage.
  rewrite <- (scan_lines_filter (reverse (Str.splitlines output))) by done.
  rewrite <- (scan_lines_filter (reverse (Str.splitlines output'))) by done.
  by rewrite !filter_reverse, H.
Qed.

Lemma read_coverage_metric_lines_only_witness :
  read_coverage report3
  = read_coverage ("  lines......: 85.3% (120 of 140)" +:+ nl +:+
                   "Overall coverage rate:" +:+ nl +:+
                   "  functions..: 90.0% (9 of 10)" +:+ nl +:+
                   "  branches...: 50.0% (4 of 8)").
Proof. apply read_coverage_metric_lines_only. reflexivity. Defined.

Lemma scan_lines_stops (xs ys : list string) (c r : list metric) :
  none_not_in c = false ->
  scan_lines xs c = Ok r -> none_not_in r = true ->
  scan_lines (xs ++ ys) c = Ok r.
Proof.
  revert c. induction xs as [|x xs IH]; intros c Hc H Hr.
  - injection H as <-. congruence.
  - change ((x :: xs) ++ ys) with (x :: (xs ++ ys)). rewrite scan_lines_cons in *.
    destruct (match_prefixes _ x c) as [c1|]; [simpl in *|done].
    destruct (none_not_in c1) eqn:Hc1; [done | by apply IH].
Qed.

(** X4. The scan stops at the lowest point where all three metrics are
    assigned: when the tail of a text parses, alone, to three assigned
    metrics, the text parses to the same result, whatever stands above
    the tail, lines that could not be parsed included. *)
Theorem read_coverage_reads_tail_only (output tail : string) (top : list string)
    (coverage : list metric) :
  Str.splitlines output = top ++ Str.splitlines tail ->
  read_coverage tail = Ok coverage ->
  none_not_in coverage = true ->
  read_coverage output = Ok coverage.
Proof.
  unfold read_coverage. intros -> H Hfull. rewrite reverse_app.
  by apply scan_lines_stops.
Qed.

Lemma read_coverage_reads_tail_only_witness :
  read_coverage ("  lines......: 85.3%" +:+ nl +:+ report3) = Ok report_metrics
  /\ read_coverage "  lines......: 85.3%" = Raise ValueError.
Proof.
  split; [|reflexivity].
  by apply (read_coverage_reads_tail_only _ report3 ["  lines......: 85.3%"]).
Defined.

(** ** The merged summary *)

Lemma merge_lookup (docs : list summary_doc) (summary0 : summary_doc) (k : string) :
  fold_left (fun summary new => new ∪ summary) docs summary0 !! k
  = match last (omap (fun d : summary_doc => d !! k) docs) with
    | Some v => Some v
    | None => summary0 !! k
    end.
Proof.
  revert summary0. induction docs as [|d docs IH]; intros summary0; [done|].
  cbn [fold_left]. rewrite IH. cbn [omap list_omap].
  destruct (d !! k) as [v|] eqn:Hd.
  - rewrite last_cons. destruct (last _); [done|]. by apply lookup_union_Some_l.
  - destruct (last _); [done|]. by apply lookup_union_r.
Qed.

(** X5. The summary of a test merges the documents of its
    [summary.yaml] in their order: a key has the value that the last
    document holding it gives it, and no value when no document holds
    it. *)
Theorem load_summary_last_document_wins (W : world) (a : args) (test k : string) :
  load_summary W a test !! k
  = last (omap (fun d : summary_doc => d !! k)
               (yaml_safe_load_all W (join (join (test_dir a) test) "summary.yaml"))).
Proof.
  unfold load_summary. rewrite merge_lookup. rewrite lookup_empty. by destruct (last _).
Qed.

(** ** store_coverage on its other paths *)

(** X6. When the configuration lacks one of the four database keys,
    [store_coverage] raises [KeyError] for the first key that is missing,
    in the order host, user, name, password, and has done nothing: the
    driver was not called. *)
Theorem store_coverage_missing_key {order : DictOrder} (W : world) (ctx : args)
    (tc : pydict (list metric)) (rev suite : string) (s : sys) (k : string) :
  k ∈ db_keys ->
  teuthology_config ctx !! k = None ->
  exists before k' after,
    db_keys = before ++ k' :: after
    /\ (forall k0, k0 ∈ before -> is_Some (teuthology_config ctx !! k0))
    /\ teuthology_config ctx !! k' = None
    /\ store_coverage W ctx tc rev suite s = (Raise (KeyError k'), s).
Proof.
  intros Hk Hnone. unfold store_coverage, connect_to_db, mbind, getitem, ret, raise.
  destruct (teuthology_config ctx !! "coverage_db_host") as [h|] eqn:E1;
    [|exists [], "coverage_db_host", (drop 1 db_keys); repeat split; try done;
      by intros ? ?%elem_of_nil].
  destruct (teuthology_config ctx !! "coverage_db_user") as [u|] eqn:E2;
    [|exists (take 1 db_keys), "coverage_db_user", (drop 2 db_keys); repeat split; try done;
      intros k0 Hk0; repeat (apply elem_of_cons in Hk0 as [->|Hk0]; [by eexists|]);
      by apply elem_of_nil in Hk0].
  destruct (teuthology_config ctx !! "coverage_db_name") as [n|] eqn:E3;
    [|exists (take 2 db_keys), "coverage_db_name", (drop 3 db_keys); repeat split; try done;
      intros k0 Hk0; repeat (apply elem_of_cons in Hk0 as [->|Hk0]; [by eexists|]);
      by apply elem_of_nil in Hk0].
  destruct (teuthology_config ctx !! "coverage_db_password") as [p|] eqn:E4;
    [|exists (take 3 db_keys), "coverage_db_password", []; repeat split; try done;
      intros k0 Hk0; repeat (apply elem_of_cons in Hk0 as [->|Hk0]; [by eexists|]);
      by apply elem_of_nil in Hk0].
  exfalso. unfold db_keys in Hk.
  repeat (apply elem_of_cons in Hk as [->|Hk]; [congruence|]). by apply elem_of_nil in Hk.
Qed.

Lemma store_coverage_missing_key_witness :
  let ctx := {| test_dir := "/r/suite"; lcov_output := "/out"; html_output := None;
                cov_tools_dir := "../../coverage"; skip_init := false;
                teuthology_config :=
                  delete "coverage_db_name" (delete "coverage_db_password" cfg) |} in
  exists before k' after,
    db_keys = before ++ k' :: after
    /\ (forall k0, k0 ∈ before -> is_Some (teuthology_config ctx !! k0))
    /\ teuthology_config ctx !! k' = None
    /\ @store_coverage Dict27.order W0 ctx dataset0 "s1" "suite" (initial [])
       = (Raise (KeyError k'), initial []).
Proof.
  intros ctx.
  apply (@store_coverage_missing_key Dict27.order W0 ctx dataset0 "s1" "suite"
           (initial []) "coverage_db_password").
  - by do 3 right; left.
  - reflexivity.
Defined.

(** X7. When [db.autocommit(False)] raises, the exception leaves
    [store_coverage] before the [with] block is entered: the connection
    was opened and [close] is never called. *)
Theorem autocommit_failure_leaves_connection_open {order : DictOrder} (W : world)
    (ctx : args) (tc : pydict (list metric)) (rev suite : string) (s : sys) (e : exn) :
  (forall k, k ∈ db_keys -> is_Some (teuthology_config ctx !! k)) ->
  db_fault W OpConnect = None ->
  db_fault W OpAutocommit = Some e ->
  exists host user name passwd s',
    teuthology_config ctx !! "coverage_db_host" = Some host
    /\ teuthology_config ctx !! "coverage_db_user" = Some user
    /\ teuthology_config ctx !! "coverage_db_name" = Some name
    /\ teuthology_config ctx !! "coverage_db_password" = Some passwd
    /\ store_coverage W ctx tc rev suite s = (Raise e, s')
    /\ trace s' = trace s ++ [EvConnect host user name passwd; EvAutocommit false]
    /\ connected (db s') = true
    /\ committed (db s') = committed (db s).
Proof.
  intros Hcfg Hc Ha. unfold store_coverage, connect_to_db, mbind, getitem, ret, raise,
    db_call, emit, update_db.
  destruct (Hcfg "coverage_db_host") as [h Hh]; [by left|].
  destruct (Hcfg "coverage_db_user") as [u Hu]; [by right; left|].
  destruct (Hcfg "coverage_db_name") as [n Hn]; [by do 2 right; left|].
  destruct (Hcfg "coverage_db_password") as [p Hp]; [by do 3 right; left|].
  rewrite Hh, Hu, Hn, Hp, Hc, Ha. simpl. eexists h, u, n, p, _.
  do 4 (split; [reflexivity|]). split; [reflexivity|].
  simpl. by rewrite <- app_assoc.
Qed.

Lemma autocommit_failure_leaves_connection_open_witness :
  exists host user name passwd s',
    teuthology_config args0 !! "coverage_db_host" = Some host
    /\ teuthology_config args0 !! "coverage_db_user" = Some user
    /\ teuthology_config args0 !! "coverage_db_name" = Some name
    /\ teuthology_config args0 !! "coverage_db_password" = Some passwd
    /\ @store_coverage Dict27.order
      (world_of "/r/suite" [] (fun _ => 0) (fun _ => "")
         (fails_at OpAutocommit (DatabaseError "server has gone away")) 0)
      args0 dataset0 "s1" "suite" (initial [])
    = (Raise (DatabaseError "server has gone away"), s')
    /\ trace s' = trace (initial []) ++ [EvConnect host user name passwd; EvAutocommit false]
    /\ connected (db s') = true
    /\ committed (db s') = committed (db (initial [])).
Proof.
  apply (@autocommit_failure_leaves_connection_open Dict27.order).
  - intros k Hk. unfold db_keys in Hk.
    repeat (apply elem_of_cons in Hk as [->|Hk]; [by eexists|]). by apply elem_of_nil in Hk.
  - reflexivity.
  - reflexivity.
Defined.

(** X8. When [db.cursor()] raises, the name [cursor] is unbound in the
    [finally] clause, so the caller gets [UnboundLocalError] in place of
    the exception of the driver; [rollback] and [close] were called and
    the table is as before. *)
Theorem cursor_failure_is_masked {order : DictOrder} (W : world) (ctx : args)
    (tc : pydict (list metric)) (rev suite : string) (s s0 : sys)
    (rows : list row) (e : exn) :
  connect_to_db W ctx s = (Ok tt, s0) ->
  build_rows rev suite (iteritems tc) = Ok rows ->
  db_fault W OpCursor = Some e ->
  db_fault W OpClose = None ->
  exists s',
    store_coverage W ctx tc rev suite s = (Raise (UnboundLocalError "cursor"), s')
    /\ trace s' = trace s0 ++ [EvCursor; EvRollback; EvClose]
    /\ committed (db s') = committed (db s)
    /\ connected (db s') = false.
Proof.
  intros Hconn Hrows Hcur Hclose.
  destruct (connect_to_db_ok W ctx s s0 Hconn) as (h & u & n & pw & _ & Hcom & _ & _).
  run_db. rewrite Hconn. run_db. rewrite Hrows, Hcur. run_db.
  destruct (db_fault W OpRollback); run_db; rewrite Hclose; run_db;
    (eexists; split; [reflexivity|]); simpl; by rewrite <- !app_assoc.
Qed.

Lemma cursor_failure_is_masked_witness :
  let W := world_of "/r/suite" [] (fun _ => 0) (fun _ => "")
             (fails_at OpCursor (DatabaseError "out of memory")) 0 in
  let s := initial [[PyStr "s0"; PyStr "old"]] in
  exists s',
    @store_coverage Dict27.order W args0 dataset0 "s1" "suite" s
    = (Raise (UnboundLocalError "cursor"), s')
    /\ trace s' = trace (connect_to_db W args0 s).2 ++ [EvCursor; EvRollback; EvClose]
    /\ committed (db s') = committed (db s)
    /\ connected (db s') = false.
Proof.
  intros W s.
  eapply (@cursor_failure_is_masked Dict27.order W args0 dataset0 "s1" "suite" s
            (connect_to_db W args0 s).2 _ (DatabaseError "out of memory"));
    vm_compute; reflexivity.
Defined.

Lemma connect_to_db_committed (W : world) (ctx : args) (s s0 : sys) (r : result unit) :
  connect_to_db W ctx s = (r, s0) -> committed (db s0) = committed (db s).
Proof.
  unfold connect_to_db, mbind, db_call, emit, update_db, raise, getitem, ret.
  repeat (destruct (teuthology_config ctx !! _); [|by intros [= _ <-]]).
  destruct (db_fault W OpConnect); [by intros [= _ <-]|].
  destruct (db_fault W OpAutocommit); by intros [= _ <-].
Qed.

(** X9. [store_coverage] never leaves part of the rows in the table:
    after every run, however the driver fails, the table holds what it
    held before, or that and all the rows of the dataset, and the latter
    only when [executemany] and [commit] both returned. *)
Theorem store_coverage_all_or_nothing {order : DictOrder} (W : world) (ctx : args)
    (tc : pydict (list metric)) (rev suite : string) (s : sys) :
  let s' := (store_coverage W ctx tc rev suite s).2 in
  committed (db s') = committed (db s)
  \/ exists rows,
       build_rows rev suite (iteritems tc) = Ok rows
       /\ committed (db s') = committed (db s) ++ rows
       /\ db_fault W OpExecutemany = None
       /\ db_fault W OpCommit = None.
Proof.
  run_db. destruct (connect_to_db W ctx s) as [[[]|e] s0] eqn:Hconn.
  2: { left. simpl. by eapply connect_to_db_committed. }
  destruct (connect_to_db_ok W ctx s s0 Hconn) as (h & u & n & pw & _ & Hcom & Hpend & _).
  run_db.
  destruct (build_rows rev suite (iteritems tc)) as [rows|e0].
  - destruct (db_fault W OpCursor) as [e1|]; run_db.
    + left. by destruct (db_fault W OpRollback), (db_fault W OpClose).
    + destruct (db_fault W OpExecutemany) as [e|]; run_db.
      * left. by destruct (db_fault W OpRollback), (db_fault W OpCursorClose),
                   (db_fault W OpClose).
      * destruct (db_fault W OpCommit) eqn:Hcommit.
        -- left. by destruct (db_fault W OpCursorClose), (db_fault W OpClose).
        -- right. exists rows. repeat split; try done.
           destruct (db_fault W OpCursorClose), (db_fault W OpClose); simpl;
             by rewrite Hpend, Hcom.
  - left. by destruct (db_fault W OpClose).
Qed.

Lemma flatten_None (coverage : list metric) :
  None ∈ coverage -> flatten coverage = Raise TypeError.
Proof.
  induction coverage as [|[[n p]|] coverage IH]; intros Hin.
  - by apply elem_of_nil in Hin.
  - apply elem_of_cons in Hin as [?|Hin]; [done|]. simpl. by rewrite IH.
  - done.
Qed.

Lemma flatten_raises (coverage : list metric) (e : exn) :
  flatten coverage = Raise e -> e = TypeError.
Proof.
  induction coverage as [|[[n p]|] coverage IH]; simpl; intros E; [done| |congruence].
  destruct (flatten coverage) as [|e']; [done|]. simpl in E.
  injection E as <-. by apply IH.
Qed.

Lemma build_rows_None (rev suite : string) (entries : list (string * list metric))
    (k : string) (coverage : list metric) :
  (k, coverage) ∈ entries -> None ∈ coverage ->
  build_rows rev suite entries = Raise TypeError.
Proof.
  intros Hin Hnone. induction entries as [|[k' c'] entries IH];
    [by apply elem_of_nil in Hin|].
  cbn [build_rows]. apply elem_of_cons in Hin as [[= <- <-]|Hin].
  - by rewrite flatten_None.
  - destruct (flatten c') as [cols|e] eqn:E; simpl; [by rewrite IH|].
    by rewrite (flatten_raises _ _ E).
Qed.

(** X10. A dataset with an entry in which a metric was never assigned
    makes [store_coverage] raise [TypeError] while the rows are built:
    the connection is open by then, no cursor is asked for, and the
    [with] block closes the connection; the table is as before. *)
Theorem unassigned_metric_aborts_before_cursor {order : DictOrder} (W : world)
    (ctx : args) (tc : pydict (list metric)) (rev suite : string) (s s0 : sys)
    (k : string) (coverage : list metric) :
  connect_to_db W ctx s = (Ok tt, s0) ->
  (k, coverage) ∈ iteritems tc ->
  None ∈ coverage ->
  db_fault W OpClose = None ->
  exists s',
    store_coverage W ctx tc rev suite s = (Raise TypeError, s')
    /\ trace s' = trace s0 ++ [EvClose]
    /\ committed (db s') = committed (db s)
    /\ connected (db s') = false.
Proof.
  intros Hconn Hin Hnone Hclose.
  destruct (connect_to_db_ok W ctx s s0 Hconn) as (h & u & n & pw & _ & Hcom & _ & _).
  run_db. rewrite Hconn. run_db.
  rewrite (build_rows_None rev suite _ k coverage Hin Hnone). run_db.
  rewrite Hclose. run_db. eexists. split; [reflexivity|]. simpl. done.
Qed.

Lemma unassigned_metric_aborts_before_cursor_witness :
  let tc := dict_set "test-a" [Some (Some 1, Some f50_0); None; None] dataset0 in
  let s := initial [[PyStr "s0"; PyStr "old"]] in
  exists s',
    @store_coverage Dict27.order W0 args0 tc "s1" "suite" s = (Raise TypeError, s')
    /\ trace s' = trace (connect_to_db W0 args0 s).2 ++ [EvClose]
    /\ committed (db s') = committed (db s)
    /\ connected (db s') = false.
Proof.
  intros tc s.
  eapply (@unassigned_metric_aborts_before_cursor Dict27.order W0 args0 tc "s1" "suite" s
            (connect_to_db W0 args0 s).2 "test-a" [Some (Some 1, Some f50_0); None; None]).
  - vm_compute; reflexivity.
  - vm_compute. repeat first [by left | right].
  - by right; left.
  - reflexivity.
Defined.

(** ** _analyze on its other paths *)

Lemma load_summaries_missing_flavor (W : world) (a : args) (tests : list string)
    (d : pydict summary_doc) (f : string) :
  f ∈ tests -> load_summary W a f !! "flavor" = None ->
  load_summaries W a tests d = Raise (KeyError "flavor").
Proof.
  revert d. induction tests as [|t tests IH]; intros d Hin Hf;
    [by apply elem_of_nil in Hin|].
  simpl. apply elem_of_cons in Hin as [<-|Hin]; [by rewrite Hf|].
  destruct (load_summary W a t !! "flavor") as [fl|]; [|done].
  destruct (String.eqb fl "gcov"); by apply IH.
Qed.

(** X11. A run ends well only when the merged summary of every
    candidate directory has the key [flavor], whether the directory is a
    coverage run or not: with one candidate that lacks it the run raises,
    and has done nothing by then: no tool was run and the database was
    not opened. *)
Theorem missing_flavor_aborts {order : DictOrder} (W : world) (a : args) (s : sys)
    (f : string) :
  f ∈ candidates W a ->
  load_summary W a f !! "flavor" = None ->
  exists e, _analyze W a s = (Raise e, s).
Proof.
  intros Hin Hf. exists (KeyError "flavor"). unfold _analyze.
  by rewrite (load_summaries_missing_flavor W a _ [] f Hin Hf).
Qed.

Lemma missing_flavor_aborts_witness :
  coverage_enabled W_no_flavor args0 "a"
  /\ exists e, @_analyze Dict27.order W_no_flavor args0 (initial []) = (Raise e, initial []).
Proof.
  split; [reflexivity|].
  apply (@missing_flavor_aborts Dict27.order W_no_flavor args0 (initial []) "b").
  - apply (bool_decide_unpack _). vm_compute. reflexivity.
  - reflexivity.
Defined.

(** ** What a run does before it stores *)

Lemma reaches_refl (s : sys) : reaches s s.
Proof. split; [done|]. exists []. by rewrite app_nil_r. Qed.

Lemma reaches_trans (s1 s2 s3 : sys) : reaches s1 s2 -> reaches s2 s3 -> reaches s1 s3.
Proof.
  intros [D1 (evs1 & T1 & F1)] [D2 (evs2 & T2 & F2)]. split; [congruence|].
  exists (evs1 ++ evs2). split; [by rewrite T2, T1, app_assoc | by apply Forall_app].
Qed.

Lemma quiet_reaches {A : Type} (m : M A) (s s' : sys) (r : result A) :
  quiet m -> m s = (r, s') -> reaches s s'.
Proof. intros Hq E. exact (Hq s r s' E). Qed.

Lemma quiet_ret {A : Type} (x : A) : quiet (ret x).
Proof. intros s r s' [= <- <-]. apply reaches_refl. Qed.

Lemma quiet_raise {A : Type} (e : exn) : quiet (@raise A e).
Proof. intros s r s' [= <- <-]. apply reaches_refl. Qed.

Lemma quiet_lift {A : Type} (x : result A) : quiet (lift x).
Proof. intros s r s' [= <- <-]. apply reaches_refl. Qed.

Lemma quiet_getitem (d : gmap string string) (k : string) : quiet (getitem d k).
Proof. unfold getitem. destruct (d !! k); [apply quiet_ret | apply quiet_raise]. Qed.

Lemma quiet_local {A : Type} (name : string) (v : option A) : quiet (local name v).
Proof. destruct v; [apply quiet_ret | apply quiet_raise]. Qed.

Lemma quiet_emit (ev : event) : is_db_event ev = false -> quiet (emit ev).
Proof.
  intros H s r s' [= <- <-]. split; [done|]. exists [ev]. split; [done | by constructor].
Qed.

Lemma quiet_bind {A B : Type} (m : M A) (k : A -> M B) :
  quiet m -> (forall x, quiet (k x)) -> quiet (mbind m k).
Proof.
  intros Hm Hk s r s'. unfold mbind. destruct (m s) as [[x|e] s1] eqn:E.
  - intros Hr. eapply reaches_trans; [exact (Hm _ _ _ E) | exact (Hk x _ _ _ Hr)].
  - intros [= <- <-]. exact (Hm _ _ _ E).
Qed.

Lemma quiet_check_call (W : world) (cmd : list string) : quiet (check_call W cmd).
Proof.
  unfold check_call. apply quiet_bind; [by apply quiet_emit|]. intros _.
  destruct (_ =? _); [apply quiet_ret | apply quiet_raise].
Qed.

Lemma quiet_popen (W : world) (cmd : list string) : quiet (popen_communicate W cmd).
Proof.
  unfold popen_communicate. apply quiet_bind; [by apply quiet_emit|]. intros _.
  apply quiet_ret.
Qed.

Lemma quiet_cov_init (W : world) (a : args) (tests : list string) (suite : string) :
  quiet (cov_init W a tests suite).
Proof.
  unfold cov_init. apply quiet_bind; [destruct tests; [apply quiet_raise | apply quiet_ret]|].
  intros test0. apply quiet_bind; [apply quiet_getitem|]. intros build_dir.
  apply quiet_bind; [apply quiet_check_call|]. intros _. by apply quiet_emit.
Qed.

Lemma quiet_analyze_tests (W : world) (a : args) (items : list (string * summary_doc))
    (vars : loop_vars) :
  quiet (analyze_tests W a items vars).
Proof.
  revert vars. induction items as [|[t summ] items IH]; intros vars; simpl.
  - apply quiet_ret.
  - apply quiet_bind; [|apply IH]. unfold analyze_test.
    apply quiet_bind; [apply quiet_popen|]. intros out.
    apply quiet_bind; [apply quiet_lift|]. intros coverage.
    apply quiet_bind; [apply quiet_popen|]. intros out'.
    apply quiet_bind; [by apply quiet_emit|]. intros _. apply quiet_ret.
Qed.

Lemma mbind_inv {A B : Type} (m : M A) (k : A -> M B) (s s' : sys) (r : result B) :
  mbind m k s = (r, s') ->
  (exists e, m s = (Raise e, s') /\ r = Raise e)
  \/ exists x s1, m s = (Ok x, s1) /\ k x s1 = (r, s').
Proof.
  unfold mbind. destruct (m s) as [[x|e] s1]; [right; eauto | intros [= <- <-]; left; eauto].
Qed.

(** One step of a run: the first action is quiet, and either it raised or
    the run goes on from a state that the start reaches. *)
Lemma quiet_step {A B : Type} (m : M A) (k : A -> M B) (s0 s s' : sys) (r : result B) :
  quiet m -> reaches s0 s -> mbind m k s = (r, s') ->
  ((exists e, r = Raise e) /\ reaches s0 s')
  \/ exists x s1, m s = (Ok x, s1) /\ reaches s0 s1 /\ k x s1 = (r, s').
Proof.
  intros Hq R H. apply mbind_inv in H as [(e & E & ->)|(x & s1 & E & H)].
  - left. split; [eauto|]. eapply reaches_trans; [exact R | exact (Hq _ _ _ E)].
  - right. exists x, s1. split; [done|]. split; [|done].
    eapply reaches_trans; [exact R | exact (Hq _ _ _ E)].
Qed.

(** A run of [_analyze] raises before it stores, and has left the
    database alone, or it gets to [store_coverage] from a state in which
    the database is as it was; it gets there only when [genhtml], if it
    was to run, has exited with 0. *)
Lemma _analyze_cases {order : DictOrder} (W : world) (a : args) (s s' : sys)
    (r : result unit) :
  _analyze W a s = (r, s') ->
  ((exists e, r = Raise e) /\ reaches s s')
  \/ exists s1 tc rev,
       reaches s s1
       /\ (truthy (html_output a) = true ->
           exit_status W (genhtml_cmd a (basename (test_dir a))) = 0)
       /\ store_coverage W a tc rev (basename (test_dir a)) s1 = (r, s').
Proof.
  unfold _analyze. intros H. pose proof (reaches_refl s) as R.
  eapply quiet_step in H as [?|(ts & s1 & _ & R1 & H)];
    [by left | | apply quiet_lift | exact R]. clear R.
  eapply quiet_step in H as [?|(u & s2 & _ & R2 & H)];
    [by left | | | exact R1].
  2: { destruct (0 <? length ts)%nat; [apply quiet_ret | apply quiet_raise]. }
  clear R1.
  eapply quiet_step in H as [?|(u3 & s3 & _ & R3 & H)];
    [by left | | | exact R2].
  2: { destruct (negb (skip_init a)); [apply quiet_cov_init | apply quiet_ret]. }
  clear R2.
  eapply quiet_step in H as [?|(vars & s4 & _ & R4 & H)];
    [by left | | apply quiet_analyze_tests | exact R3]. clear R3.
  eapply quiet_step in H as [?|(out & s5 & _ & R5 & H)];
    [by left | | apply quiet_local | exact R4]. clear R4.
  eapply quiet_step in H as [?|(coverage & s6 & _ & R6 & H)];
    [by left | | apply quiet_lift | exact R5]. clear R5.
  eapply quiet_step in H as [?|(u7 & s7 & Hhtml & R7 & H)];
    [by left | | | exact R6].
  2: { destruct (truthy (html_output a)); [apply quiet_check_call | apply quiet_ret]. }
  clear R6.
  eapply quiet_step in H as [?|(summ & s8 & _ & R8 & H)];
    [by left | | apply quiet_local | exact R7]. clear R7.
  eapply quiet_step in H as [?|(rev & s9 & _ & R9 & H)];
    [by left | | apply quiet_getitem | exact R8]. clear R8.
  right. eexists s9, _, rev. split; [exact R9|]. split; [|exact H].
  intros Ht. rewrite Ht in Hhtml. by apply check_call_ok in Hhtml as [? _].
Qed.

(** X12. The database is reached only through [store_coverage], the last
    step of [_analyze]: a run that raises before, in the scanner, in a
    tool, in the parser or in [genhtml], has made no call on the driver
    and leaves the database as it was. *)
Theorem database_reached_only_by_store_coverage {order : DictOrder} (W : world)
    (a : args) (s s' : sys) (r : result unit) :
  _analyze W a s = (r, s') ->
  ((exists e, r = Raise e)
   /\ db s' = db s
   /\ exists evs, trace s' = trace s ++ evs /\ Forall (fun ev => is_db_event ev = false) evs)
  \/ exists s1 tc rev evs,
       db s1 = db s
       /\ trace s1 = trace s ++ evs
       /\ Forall (fun ev => is_db_event ev = false) evs
       /\ store_coverage W a tc rev (basename (test_dir a)) s1 = (r, s').
Proof.
  intros H.
  destruct (_analyze_cases W a s s' r H)
    as [[He [D T]]|(s1 & tc & rev & [D (evs & T & F)] & _ & Hs)].
  - left. by repeat split.
  - right. by exists s1, tc, rev, evs.
Qed.

Lemma database_reached_only_by_store_coverage_witness :
  let run := @_analyze Dict27.order W0 args0 (initial []) in
  ((exists e, run.1 = Raise e)
   /\ db run.2 = db (initial [])
   /\ exists evs, trace run.2 = trace (initial []) ++ evs
                  /\ Forall (fun ev => is_db_event ev = false) evs)
  \/ exists s1 tc rev evs,
       db s1 = db (initial [])
       /\ trace s1 = trace (initial []) ++ evs
       /\ Forall (fun ev => is_db_event ev = false) evs
       /\ @store_coverage Dict27.order W0 args0 tc rev (basename (test_dir args0)) s1
          = (run.1, run.2).
Proof.
  intros run.
  apply (@database_reached_only_by_store_coverage Dict27.order W0 args0 (initial [])).
  vm_compute. reflexivity.
Defined.

(** X13. When the HTML report is asked for and [genhtml] exits with
    another status than 0, no run ends well and none stores anything: the
    database is as before and no call on the driver was made. *)
Theorem genhtml_failure_stores_nothing {order : DictOrder} (W : world) (a : args)
    (s s' : sys) (r : result unit) :
  truthy (html_output a) = true ->
  exit_status W (genhtml_cmd a (basename (test_dir a))) <> 0 ->
  _analyze W a s = (r, s') ->
  (exists e, r = Raise e)
  /\ db s' = db s
  /\ exists evs, trace s' = trace s ++ evs /\ Forall (fun ev => is_db_event ev = false) evs.
Proof.
  intros Ht Hst H.
  destruct (_analyze_cases W a s s' r H) as [[He [D T]]|(s1 & tc & rev & _ & Hz & _)].
  - by repeat split.
  - by destruct Hst; apply Hz.
Qed.

Lemma genhtml_failure_stores_nothing_witness :
  let run := @_analyze Dict27.order W_genhtml_fails args_html (initial []) in
  (exists e, run.1 = Raise e)
  /\ db run.2 = db (initial [])
  /\ exists evs, trace run.2 = trace (initial []) ++ evs
                 /\ Forall (fun ev => is_db_event ev = false) evs.
Proof.
  intros run.
  apply (@genhtml_failure_stores_nothing Dict27.order W_genhtml_fails args_html
           (initial []) run.2 run.1).
  - reflexivity.
  - vm_compute. discriminate.
  - vm_compute. reflexivity.
Defined.

(** ** Runs with [--skip-init] *)

Section EmitsTools.
Context {order : DictOrder} (W : world) (a : args) (P : event -> Prop).
Hypothesis P_db : forall ev, is_db_event ev = true -> P ev.
Hypothesis P_popen : forall cmd, P (EvPopen cmd).
Hypothesis P_rename : forall src dst, P (EvRename src dst).

Lemma emits_db_call_any (op : db_op) (ev : event) (f : database -> database) :
  is_db_event ev = true -> emits P (db_call W op ev f).
Proof. intros H. by apply emits_db_call, P_db. Qed.

Lemma emits_executemany_any (q : string) (rows : list row) :
  emits P (executemany W q rows).
Proof.
  unfold executemany. emits_step; [by apply emits_emit, P_db|].
  destruct (db_fault W OpExecutemany); repeat emits_step.
Qed.

Lemma emits_rollback_raise (e : exn) :
  emits P (db_call W OpRollback EvRollback do_rollback ;;; @raise unit e)%M.
Proof. emits_step; [by apply emits_db_call_any | apply emits_raise]. Qed.

Lemma emits_insert_rows_any (rows : list row) : emits P (insert_rows W rows).
Proof.
  intros s r s'. unfold insert_rows.
  destruct (db_call W OpCursor EvCursor id s) as [[[]|e] s0] eqn:E0;
    destruct (emits_db_call_any OpCursor EvCursor id eq_refl _ _ _ E0) as (evs0 & T0 & F0).
  - destruct (executemany W insert_query rows s0) as [[[]|e] s1] eqn:E1;
      destruct (emits_executemany_any _ _ _ _ _ E1) as (evs1 & T1 & F1).
    + destruct (db_call W OpCommit EvCommit do_commit s1) as [r2 s2] eqn:E2.
      destruct (emits_db_call_any OpCommit EvCommit do_commit eq_refl _ _ _ E2)
        as (evs2 & T2 & F2).
      intros E3.
      destruct (emits_try_finally P (lift r2) (db_call W OpCursorClose EvCursorClose id)
                  (emits_lift P r2) (emits_db_call_any OpCursorClose EvCursorClose id eq_refl)
                  _ _ _ E3) as (evs3 & T3 & F3).
      exists (evs0 ++ evs1 ++ evs2 ++ evs3).
      split; [by rewrite T3, T2, T1, T0, <- !app_assoc | by repeat apply Forall_app_2].
    + destruct ((db_call W OpRollback EvRollback do_rollback ;;; raise e)%M s1)
        as [r2 s2] eqn:E2.
      destruct (emits_rollback_raise e _ _ _ E2) as (evs2 & T2 & F2).
      intros E3.
      destruct (emits_try_finally P (lift r2) (db_call W OpCursorClose EvCursorClose id)
                  (emits_lift P r2) (emits_db_call_any OpCursorClose EvCursorClose id eq_refl)
                  _ _ _ E3) as (evs3 & T3 & F3).
      exists (evs0 ++ evs1 ++ evs2 ++ evs3).
      split; [by rewrite T3, T2, T1, T0, <- !app_assoc | by repeat apply Forall_app_2].
  - destruct ((db_call W OpRollback EvRollback do_rollback ;;; raise e)%M s0)
      as [r2 s2] eqn:E2.
    destruct (emits_rollback_raise e _ _ _ E2) as (evs2 & T2 & F2).
    intros E3.
    destruct (emits_try_finally P (lift r2) (raise (UnboundLocalError "cursor"))
                (emits_lift P r2) (emits_raise P _) _ _ _ E3) as (evs3 & T3 & F3).
    exists (evs0 ++ evs2 ++ evs3).
    split; [by rewrite T3, T2, T0, <- !app_assoc | by repeat apply Forall_app_2].
Qed.

Lemma emits_store_coverage_any (tc : pydict (list metric)) (rev suite : string) :
  emits P (store_coverage W a tc rev suite).
Proof.
  unfold store_coverage, connect_to_db.
  repeat (emits_step; try (apply emits_db_call_any; reflexivity)).
  - apply emits_insert_rows_any.
Qed.

Lemma emits_analyze_tests_any (items : list (string * summary_doc)) (vars : loop_vars) :
  emits P (analyze_tests W a items vars).
Proof.
  revert vars. induction items as [|[t summ] items IH]; intros vars; simpl.
  - apply emits_ret.
  - emits_step; [|apply IH]. unfold analyze_test, popen_communicate.
    repeat (emits_step; try (apply emits_emit; first [apply P_popen | apply P_rename])).
Qed.

End EmitsTools.

(** X14. With [--skip-init] no run calls the initializer, and none
    copies [base.lcov] to [total.lcov]: the first merge adds to the
    [total.lcov] that the output directory already holds. *)
Theorem skip_init_runs_no_initializer {order : DictOrder} (W : world) (a : args)
    (s s' : sys) (r : result unit) :
  skip_init a = true ->
  _analyze W a s = (r, s') ->
  exists evs,
    trace s' = trace s ++ evs
    /\ Forall (fun ev => is_init_call a ev = false /\ is_copy ev = false) evs.
Proof.
  intros Hskip. unfold _analyze. rewrite Hskip. cbn [negb].
  set (P := fun ev => is_init_call a ev = false /\ is_copy ev = false).
  assert (forall ev, is_db_event ev = true -> P ev) as P_db by (by intros []).
  assert (forall cmd, P (EvPopen cmd)) as P_popen by done.
  assert (forall src dst, P (EvRename src dst)) as P_rename by done.
  match goal with
  | |- ?m _ = _ -> _ => assert (emits P m) as Hem
  end.
  { repeat first
      [ apply emits_analyze_tests_any; assumption
      | apply emits_store_coverage_any; assumption
      | apply emits_bind; [|intros ?]
      | apply emits_lift | apply emits_local | apply emits_getitem
      | apply emits_ret | apply emits_raise
      | match goal with |- emits _ (if ?b then _ else _) => destruct b end
      | progress unfold check_call
      | apply emits_emit; split; [apply genhtml_is_no_init_call | reflexivity] ]. }
  intros H. exact (Hem _ _ _ H).
Qed.

Lemma skip_init_runs_no_initializer_witness :
  let run := @_analyze Dict27.order W0 args_skip (initial []) in
  run.1 = Ok tt
  /\ exists evs,
       trace run.2 = trace (initial []) ++ evs
       /\ Forall (fun ev => is_init_call args_skip ev = false /\ is_copy ev = false) evs.
Proof.
  intros run. split; [vm_compute; reflexivity|].
  apply (@skip_init_runs_no_initializer Dict27.order W0 args_skip (initial []) run.2 run.1).
  - reflexivity.
  - vm_compute. reflexivity.
Defined.

(** ** The exit status of the analysis tools *)

Lemma mbind_ext {A B : Type} (m m' : M A) (k k' : A -> M B) (s : sys) :
  m s = m' s -> (forall x s1, k x s1 = k' x s1) -> mbind m k s = mbind m' k' s.
Proof. intros Hm Hk. unfold mbind. rewrite Hm. destruct (m' s) as [[x|e] s1]; [apply Hk | done]. Qed.

Lemma check_call_status (W : world) (status : list string -> Z) (cmd : list string)
    (s : sys) :
  status cmd = exit_status W cmd ->
  check_call (with_exit_status W status) cmd s = check_call W cmd s.
Proof. intros H. unfold check_call. cbn [exit_status with_exit_status]. by rewrite H. Qed.

(** X15. The exit status of [cov-analyze.sh] and of the [lcov -a] merge
    is never looked at: a run is the same, effect by effect and in its
    result, whatever these two tools exit with. *)
Theorem analysis_exit_status_ignored {order : DictOrder} (W : world) (a : args)
    (status : list string -> Z) (s : sys) :
  (forall cmd, status cmd = exit_status W cmd
               \/ exists test, cmd = analyze_cmd a test \/ cmd = merge_cmd a test) ->
  _analyze (with_exit_status W status) a s = _analyze W a s.
Proof.
  intros Hst.
  assert (forall cmd, length cmd <> 7%nat -> status cmd = exit_status W cmd) as Hst'.
  { intros cmd Hlen. destruct (Hst cmd) as [?|(t & [->| ->])]; [done| |]; by destruct Hlen. }
  unfold _analyze.
  change (candidates (with_exit_status W status) a) with (candidates W a).
  change (load_summaries (with_exit_status W status) a) with (load_summaries W a).
  apply mbind_ext; [done|]. intros ts s1.
  apply mbind_ext; [done|]. intros _ s2.
  apply mbind_ext.
  { destruct (negb (skip_init a)); [|done]. unfold cov_init.
    apply mbind_ext; [done|]. intros test0 s3.
    apply mbind_ext; [done|]. intros build_dir s4.
    apply mbind_ext; [|done]. by apply check_call_status, Hst'. }
  intros _ s3.
  change (analyze_tests (with_exit_status W status) a) with (analyze_tests W a).
  apply mbind_ext; [done|]. intros vars s4.
  apply mbind_ext; [done|]. intros out s5.
  apply mbind_ext; [done|]. intros coverage s6.
  apply mbind_ext.
  { destruct (truthy (html_output a)); [|done]. by apply check_call_status, Hst'. }
  intros _ s7.
  apply mbind_ext; [done|]. intros summ s8.
  apply mbind_ext; [done|]. intros rev s9.
  reflexivity.
Qed.

Lemma analysis_exit_status_ignored_witness :
  exit_status (with_exit_status W0 analyzer_fails) (analyze_cmd args0 "a") = 2
  /\ @_analyze Dict27.order (with_exit_status W0 analyzer_fails) args0 (initial [])
     = @_analyze Dict27.order W0 args0 (initial []).
Proof.
  split; [reflexivity|].
  apply (@analysis_exit_status_ignored Dict27.order W0 args0 analyzer_fails (initial [])).
  intros cmd. unfold analyzer_fails. case_bool_decide as Hc.
  - right. exists "a". by left.
  - by left.
Defined.

(** ** Where the rows come from *)

Lemma flatten_length (coverage : list metric) (cols : list pyval) :
  flatten coverage = Ok cols -> length cols = (2 * length coverage)%nat.
Proof.
  revert cols. induction coverage as [|[[n p]|] coverage IH]; intros cols H.
  - by injection H as <-.
  - simpl in H. destruct (flatten coverage) as [items|]; [|done].
    injection H as <-. simpl. rewrite (IH items eq_refl). lia.
  - done.
Qed.

Lemma read_coverage_length (output : string) (coverage : list metric) :
  read_coverage output = Ok coverage -> length coverage = 3%nat.
Proof. intros H. by apply scan_lines_from_lines in H as [? _]. Qed.

Lemma store_coverages_get (W : world) (a : args) (items : list (string * summary_doc))
    (d d' : pydict (list metric)) (k : string) (c : list metric) :
  store_coverages W a items d = Ok d' ->
  dict_get k d' = Some c ->
  dict_get k d = Some c
  \/ exists t summ, (t, summ) ∈ items /\ k = description t summ
                    /\ read_coverage (stdout_of W (analyze_cmd a t)) = Ok c.
Proof.
  revert d. induction items as [|[t summ] items IH]; intros d H Hk.
  - injection H as <-. by left.
  - cbn [store_coverages] in H.
    destruct (read_coverage (stdout_of W (analyze_cmd a t))) as [cov|] eqn:Hcov;
      [simpl in H|done].
    destruct (IH _ H Hk) as [Hd|(t' & summ' & Hin & -> & Hr)].
    + rewrite dict_get_set in Hd.
      destruct (String.eqb_spec k (description t summ)) as [->|_]; [|by left].
      injection Hd as <-. right. exists t, summ. split; [by left | done].
    + right. exists t', summ'. split; [by right | done].
Qed.

Lemma build_rows_elem (rev suite : string) (entries : list (string * list metric))
    (rows : list row) :
  build_rows rev suite entries = Ok rows ->
  Forall (fun r : row =>
            exists k c cols, (k, c) ∈ entries /\ flatten c = Ok cols
                             /\ r = [PyStr rev; PyStr k; PyStr suite] ++ cols) rows.
Proof.
  revert rows. induction entries as [|[test cov] entries IH]; intros rows H.
  - injection H as <-. constructor.
  - cbn [build_rows] in H. destruct (flatten cov) as [cols|] eqn:Hf; [simpl in H|done].
    destruct (build_rows rev suite entries) as [rows'|]; [simpl in H|done].
    injection H as <-. constructor.
    + exists test, cov, cols. split; [by left | done].
    + eapply Forall_impl; [by apply IH|]. intros r (k & c & cols' & Hin & ? & ?).
      exists k, c, cols'. split; [by right | done].
Qed.

(** X16. In a run that ends well every row that the table gains has nine
    values, as many as the query has placeholders: the revision, a label,
    the suite, and the six columns of one parsed report. The report of the
    row labelled as the total is the output of the last [lcov -a] merge of
    the loop; the report of any other row is the output of
    [cov-analyze.sh] for a test with that description. *)
Theorem rows_hold_parsed_reports {order : DictOrder} (W : world) (a : args)
    (s s' : sys) :
  _analyze W a s = (Ok tt, s') ->
  let suite := basename (test_dir a) in
  exists ts t summ rev rows,
    load_summaries W a (candidates W a) [] = Ok ts
    /\ last (iteritems ts) = Some (t, summ)
    /\ committed (db s') = committed (db s) ++ rows
    /\ Forall (fun r : row =>
                 length r = 9%nat
                 /\ exists label cmd coverage cols,
                      r = [PyStr rev; PyStr label; PyStr suite] ++ cols
                      /\ read_coverage (stdout_of W cmd) = Ok coverage
                      /\ flatten coverage = Ok cols
                      /\ if String.eqb label (total_label suite)
                         then cmd = merge_cmd a t
                         else exists t' summ',
                                (t', summ') ∈ iteritems ts
                                /\ label = description t' summ'
                                /\ cmd = analyze_cmd a t') rows.
Proof.
  intros H suite.
  destruct (_analyze_ok W a s s' H)
    as (ts & t & summ & d & total & rev & rows & test0 & build_dir & h & u & n & p &
        Hload & Hlast & Hst & Htotal & Hrev & Hrows & T & C).
  fold suite in Hrows.
  exists ts, t, summ, rev, rows. split; [done|]. split; [done|]. split; [done|].
  eapply Forall_impl; [exact (build_rows_elem _ _ _ _ Hrows)|].
  intros r (k & c & cols & Hin & Hf & ->).
  apply iteritems_get in Hin. rewrite dict_get_set in Hin.
  assert (exists cmd, read_coverage (stdout_of W cmd) = Ok c
                      /\ if String.eqb k (total_label suite)
                         then cmd = merge_cmd a t
                         else exists t' summ',
                                (t', summ') ∈ iteritems ts
                                /\ k = description t' summ'
                                /\ cmd = analyze_cmd a t') as (cmd & Hr & Hcmd).
  { destruct (String.eqb k (total_label suite)).
    - injection Hin as <-. by exists (merge_cmd a t).
    - destruct (store_coverages_get W a _ [] d k c Hst Hin)
        as [?|(t' & summ' & Hin' & -> & Hr)]; [done|].
      exists (analyze_cmd a t'). split; [done|]. by exists t', summ'. }
  split.
  - rewrite length_app, (flatten_length _ _ Hf), (read_coverage_length _ _ Hr). reflexivity.
  - by exists k, cmd, c, cols.
Qed.

Lemma rows_hold_parsed_reports_witness :
  let run := @_analyze Dict27.order W_described args0 (initial []) in
  let suite := basename (test_dir args0) in
  exists ts t summ rev rows,
    load_summaries W_described args0 (candidates W_described args0) [] = Ok ts
    /\ last (@iteritems Dict27.order _ ts) = Some (t, summ)
    /\ committed (db run.2) = committed (db (initial [])) ++ rows
    /\ Forall (fun r : row =>
                 length r = 9%nat
                 /\ exists label cmd coverage cols,
                      r = [PyStr rev; PyStr label; PyStr suite] ++ cols
                      /\ read_coverage (stdout_of W_described cmd) = Ok coverage
                      /\ flatten coverage = Ok cols
                      /\ if String.eqb label (total_label suite)
                         then cmd = merge_cmd args0 t
                         else exists t' summ',
                                (t', summ') ∈ @iteritems Dict27.order _ ts
                                /\ label = description t' summ'
                                /\ cmd = analyze_cmd args0 t') rows.
Proof.
  intros run.
  apply (@rows_hold_parsed_reports Dict27.order W_described args0 (initial []) run.2).
  vm_compute. reflexivity.
Defined.
